(** * Session playback and delivery protocol of the radiology tele-instruction tool

    A shallow embedding of the staff console, the patient display and the
    relay server, and the properties of the playback session, the pairing
    code and the delivery of the current instruction.

    Two deployments share the session logic:
    - the direct-code deployment (PeerJS data channel, local storage):
      [StaffDashboard] with [connectToPatient], [PatientDisplay] with the
      four digit code, and [lib/db.ts];
    - the room-relayed deployment (Socket.io server): the server's
      [io.on('connection')] handlers, [pages/StaffDashboard.tsx] and the
      socket based [PatientDisplay].

    React state is modelled by explicit state passing: an event handler maps
    the component state it closes over to the next state and to the list of
    messages it puts on the wire. *)

From stdpp Require Import base gmap strings list pretty.
From Stdlib Require Import ZArith Lia Ascii String.

Local Open Scope string_scope.
Local Open Scope Z_scope.

(** ** JavaScript values used by the handlers *)

Module JS.

(** [!!s] for a string: only the empty string is falsy. *)
Definition truthy_string (s : string) : bool :=
  match s with
  | EmptyString => false
  | String _ _ => true
  end.

(** [!!x] for [x : string | null]. *)
Definition truthy_nullable (o : option string) : bool :=
  match o with
  | Some s => truthy_string s
  | None => false
  end.

(** [a || b] where [a : string | null]. *)
Definition or_string (o : option string) (d : string) : string :=
  match o with
  | Some s => if truthy_string s then s else d
  | None => d
  end.

(** [arr[i]] for a number [i] that is an integer: [undefined] out of range. *)
Definition index {A} (arr : list A) (i : Z) : option A :=
  if i <? 0 then None else arr !! Z.to_nat i.

(** [arr.length]. *)
Definition length {A} (arr : list A) : Z := Z.of_nat (List.length arr).

(** [record[key] || []] on an object used as a map from ids to arrays (an
    array, even an empty one, is truthy). *)
Definition get_or_empty {A} (m : gmap string (list A)) (key : string) : list A :=
  default [] (m !! key).

(** [s.startsWith(p)]. *)
Definition startsWith (p s : string) : bool := String.prefix p s.

End JS.

(** ** The playback session of the staff console

    [startSession], [endSession] and [goToStep] are textually the same in
    both deployments except for the call that delivers the instruction
    ([sendInstruction(inst)] / [socket?.emit('send_instruction', inst)]) and
    the one that clears the display ([clearInstruction()] /
    [socket?.emit('clear_instruction')]).  The section is parameterised by
    those two calls; [Direct] and [Relay] below instantiate it.

    The component state: the loaded step lists ([instructionsByScenario]),
    the state of the transport ([link]), and the view and session state
    ([viewMode], [activeScenarioId], [currentStepIndex]). *)

Inductive ViewMode := ViewList | ViewSession | ViewEdit.

Record Staff (Instr Link : Type) := mkStaff {
  instructionsByScenario : gmap string (list Instr);
  link : Link;
  viewMode : ViewMode;
  activeScenarioId : option string;
  currentStepIndex : Z
}.
Arguments mkStaff {Instr Link}.
Arguments instructionsByScenario {Instr Link}.
Arguments link {Instr Link}.
Arguments viewMode {Instr Link}.
Arguments activeScenarioId {Instr Link}.
Arguments currentStepIndex {Instr Link}.

Section Session.
Context {Instr Link Msg : Type}.
Variable sendInstruction : Link → Instr → list Msg.
Variable clearInstruction : Link → list Msg.

Abbreviation Staff := (Staff Instr Link).

Definition setActiveScenarioId (v : option string) (st : Staff) : Staff :=
  mkStaff (instructionsByScenario st) (link st) (viewMode st) v (currentStepIndex st).
Definition setCurrentStepIndex (v : Z) (st : Staff) : Staff :=
  mkStaff (instructionsByScenario st) (link st) (viewMode st) (activeScenarioId st) v.
Definition setViewMode (v : ViewMode) (st : Staff) : Staff :=
  mkStaff (instructionsByScenario st) (link st) v (activeScenarioId st) (currentStepIndex st).
Definition setLink (v : Link) (st : Staff) : Staff :=
  mkStaff (instructionsByScenario st) v (viewMode st) (activeScenarioId st) (currentStepIndex st).

(** The delivery call on [instructions[i]]; the callers test the bounds
    first, an [undefined] element never reaches the wire. *)
Definition deliver (st : Staff) (instructions : list Instr) (i : Z) : list Msg :=
  match JS.index instructions i with
  | Some inst => sendInstruction (link st) inst
  | None => []
  end.

Definition startSession (st : Staff) (scenarioId : string) : Staff * list Msg :=
  let st' := setViewMode ViewSession
               (setCurrentStepIndex 0
                  (setActiveScenarioId (Some scenarioId) st)) in
  let instructions := JS.get_or_empty (instructionsByScenario st) scenarioId in
  if JS.length instructions >? 0
  then (st', deliver st instructions 0)
  else (st', []).

Definition endSession (st : Staff) : Staff * list Msg :=
  let st' := setViewMode ViewList
               (setCurrentStepIndex 0
                  (setActiveScenarioId None st)) in
  (st', clearInstruction (link st)).

Definition goToStep (st : Staff) (index : Z) : Staff * list Msg :=
  match activeScenarioId st with
  | None => (st, [])
  | Some activeId =>
      if negb (JS.truthy_string activeId) then (st, [])
      else
        let instructions := JS.get_or_empty (instructionsByScenario st) activeId in
        if (index >=? 0) && (index <? JS.length instructions)
        then (setCurrentStepIndex index st, deliver st instructions index)
        else (st, [])
  end.

(** The two buttons of the session view:
    [onClick={() => goToStep(currentStepIndex - 1)}] and
    [onClick={() => goToStep(currentStepIndex + 1)}]. *)
Definition advance (direction : Z) (st : Staff) : Staff * list Msg :=
  goToStep st (currentStepIndex st + direction).

(** The session is [Active] when [activeScenarioId] is set (the session
    view renders under [viewMode === 'session' && activeScenarioId]). *)
Definition is_active (st : Staff) : bool := JS.truthy_nullable (activeScenarioId st).

(** The step list the session view and [goToStep] read:
    [instructionsByScenario[activeScenarioId] || []]. *)
Definition active_steps (st : Staff) : list Instr :=
  match activeScenarioId st with
  | Some activeId => JS.get_or_empty (instructionsByScenario st) activeId
  | None => []
  end.

Definition cursor_in_bounds (st : Staff) : Prop :=
  0 <= currentStepIndex st < JS.length (active_steps st).

(** Operator actions on the session, and their runs. *)
Inductive Action :=
| Start (scenarioId : string)
| GoTo (index : Z)
| Next
| Previous
| End.

Definition act (st : Staff) (a : Action) : Staff * list Msg :=
  match a with
  | Start scenarioId => startSession st scenarioId
  | GoTo index => goToStep st index
  | Next => advance 1 st
  | Previous => advance (-1) st
  | End => endSession st
  end.

Fixpoint run (st : Staff) (actions : list Action) : Staff * list Msg :=
  match actions with
  | [] => (st, [])
  | a :: rest =>
      let '(st1, out1) := act st a in
      let '(st2, out2) := run st1 rest in
      (st2, (out1 ++ out2)%list)
  end.

(** The console once its scenarios are loaded, before any session: the
    initial values [useState(null)], [useState(0)] and [useState('list')]
    with the step lists [m] fetched on mount. *)
Definition initial (m : gmap string (list Instr)) (lk : Link) : Staff :=
  mkStaff m lk ViewList None 0.

(** The invariant that the operations do keep: an active session whose
    scenario has a step has its cursor on one of the steps. *)
Definition cursor_ok (st : Staff) : Prop :=
  is_active st = true → active_steps st ≠ [] → cursor_in_bounds st.

(** [k] presses of the next button, with what each press sent. *)
Fixpoint press_next (k : nat) (st : Staff) : Staff * list Msg :=
  match k with
  | O => (st, [])
  | S k' =>
      let '(st1, out1) := press_next k' st in
      let '(st2, out2) := advance 1 st1 in
      (st2, (out1 ++ out2)%list)
  end.

End Session.

(** ** Direct-code deployment: the staff console (PeerJS) *)

Module Direct.

(** [lib/db.ts]: a stored media file.  [blob_type] is [Blob.type], the MIME
    type the browser gave the uploaded file. *)
Record Blob := mkBlob {
  blob_bytes : list Byte.byte;
  blob_type : string
}.

(** [lib/db.ts]: [interface Instruction]. *)
Record Instruction := mkInstruction {
  id : string;
  scenario_id : string;
  name : string;
  media : option Blob;
  media_type : option string;
  bg_color : string
}.

(** [await blob.arrayBuffer()]: the content of the blob; the type is not
    part of an [ArrayBuffer]. *)
Definition arrayBuffer (b : Blob) : list Byte.byte := blob_bytes b.

(** The object under [payload] in [sendInstruction], which is the
    [interface Instruction] of the display. *)
Record Payload := mkPayload {
  payload_id : string;
  payload_name : string;
  payload_media : option (list Byte.byte);
  payload_media_type : option string;
  payload_bg_color : string
}.

(** What travels on the data connection: [{ type: 'instruction', payload }]
    and [{ type: 'clear' }]. *)
Inductive Message :=
| MsgInstruction (payload : Payload)
| MsgClear.

(** A [DataConnection], named by the peer id it was dialled to. *)
Record DataConnection := mkConn { conn_peer : string }.

(** The PeerJS state of the console: [patientCode], [isConnecting],
    [patientConnected], [peerRef.current] (is the local peer created) and
    [connRef.current]. *)
Record Link := mkLink {
  patientCode : string;
  isConnecting : bool;
  patientConnected : bool;
  peerRef : bool;
  connRef : option DataConnection
}.

(** [`radio-patient-${patientCode}`] in [connectToPatient]. *)
Definition fullId (patientCode : string) : string := "radio-patient-" +:+ patientCode.

(** The [payload] object built by [sendInstruction]; the blob goes as an
    [ArrayBuffer], [null] when the step has no media. *)
Definition payload_of (inst : Instruction) : Payload :=
  let mediaBuffer :=
    match media inst with
    | Some blob => Some (arrayBuffer blob)
    | None => None
    end in
  {| payload_id := id inst;
     payload_name := name inst;
     payload_media := mediaBuffer;
     payload_media_type := media_type inst;
     payload_bg_color := bg_color inst |}.

(** [sendInstruction]; the guard and the send are taken as one step (the
    function awaits the buffer in between). *)
Definition sendInstruction (lk : Link) (inst : Instruction) : list Message :=
  if bool_decide (is_Some (connRef lk)) && patientConnected lk
  then [MsgInstruction (payload_of inst)]
  else [].

Definition clearInstruction (lk : Link) : list Message :=
  if bool_decide (is_Some (connRef lk)) && patientConnected lk
  then [MsgClear]
  else [].

Abbreviation Staff := (Staff Instruction Link).

Definition startSession : Staff → string → Staff * list Message :=
  startSession sendInstruction.
Definition endSession : Staff → Staff * list Message :=
  endSession clearInstruction.
Definition goToStep : Staff → Z → Staff * list Message :=
  goToStep sendInstruction.
Definition advance : Z → Staff → Staff * list Message :=
  advance sendInstruction.
Definition run : Staff → list Action → Staff * list Message :=
  run sendInstruction clearInstruction.

(** [connectToPatient]: the submit handler of the pairing form.  It returns
    the connection it dialled, on which [open], [close] and [error] arrive
    later. *)
Definition connectToPatient (st : Staff) : Staff * option DataConnection :=
  let lk := link st in
  if negb (JS.truthy_string (patientCode lk)) || negb (peerRef lk)
  then (st, None)
  else
    let conn := mkConn (fullId (patientCode lk)) in
    (setLink (mkLink (patientCode lk) true (patientConnected lk) (peerRef lk) (connRef lk)) st,
     Some conn).

(** [conn.on('open', ...)]. *)
Definition on_open (conn : DataConnection) (st : Staff) : Staff :=
  let lk := link st in
  setLink (mkLink (patientCode lk) false true (peerRef lk) (Some conn)) st.

(** [conn.on('close', ...)]. *)
Definition on_close (st : Staff) : Staff :=
  let lk := link st in
  setLink (mkLink (patientCode lk) (isConnecting lk) false (peerRef lk) None) st.

(** [conn.on('error', ...)]; the alert is not part of the state. *)
Definition on_error (st : Staff) : Staff :=
  let lk := link st in
  setLink (mkLink (patientCode lk) false (patientConnected lk) (peerRef lk) (connRef lk)) st.

(** The console can put messages on the wire. *)
Definition linked (lk : Link) : Prop :=
  is_Some (connRef lk) ∧ patientConnected lk = true.

End Direct.

(** ** [isNaN(Number(text))]

    [Number] applied to a string is the language's StringToNumber: the text,
    with white space trimmed at both ends, must be empty (the number 0) or a
    StrNumericLiteral; anything else is [NaN].  A literal that is
    syntactically valid never yields [NaN] (out of range values are
    [Infinity] or 0), so [isNaN(Number(text))] is the failure of the
    recognizer below.  Texts are byte strings, non-ASCII characters in
    UTF-8. *)

Module JSNumber.

Definition is_digit (c : ascii) : bool :=
  let n := nat_of_ascii c in (48 <=? n)%nat && (n <=? 57)%nat.

Definition is_hex_digit (c : ascii) : bool :=
  let n := nat_of_ascii c in
  is_digit c || ((65 <=? n)%nat && (n <=? 70)%nat) || ((97 <=? n)%nat && (n <=? 102)%nat).

Definition is_octal_digit (c : ascii) : bool :=
  let n := nat_of_ascii c in (48 <=? n)%nat && (n <=? 55)%nat.

Definition is_binary_digit (c : ascii) : bool :=
  let n := nat_of_ascii c in (48 <=? n)%nat && (n <=? 49)%nat.

(** WhiteSpace and LineTerminator code points, as UTF-8 byte sequences:
    TAB, LF, VT, FF, CR, SP, U+00A0, U+1680, U+2000..U+200A, U+2028, U+2029,
    U+202F, U+205F, U+3000, U+FEFF. *)
Definition white_space : list (list nat) :=
  ([ [9]; [10]; [11]; [12]; [13]; [32];
     [194; 160];
     [225; 154; 128];
     [226; 128; 128]; [226; 128; 129]; [226; 128; 130]; [226; 128; 131];
     [226; 128; 132]; [226; 128; 133]; [226; 128; 134]; [226; 128; 135];
     [226; 128; 136]; [226; 128; 137]; [226; 128; 138];
     [226; 128; 168]; [226; 128; 169]; [226; 128; 175];
     [226; 129; 159];
     [227; 128; 128];
     [239; 187; 191] ])%nat.

Fixpoint drop_prefix (p : list nat) (s : list ascii) : option (list ascii) :=
  match p, s with
  | [], _ => Some s
  | n :: p', c :: s' => if (nat_of_ascii c =? n)%nat then drop_prefix p' s' else None
  | _ :: _, [] => None
  end.

(** The text after one leading white space character, if it starts with one. *)
Fixpoint drop_white_space (ws : list (list nat)) (s : list ascii) : option (list ascii) :=
  match ws with
  | [] => None
  | w :: ws' =>
      match drop_prefix w s with
      | Some rest => Some rest
      | None => drop_white_space ws' s
      end
  end.

(** White space characters removed from the front of [s], at most [fuel]
    of them. *)
Fixpoint strip (ws : list (list nat)) (fuel : nat) (s : list ascii) : list ascii :=
  match fuel with
  | O => s
  | S fuel' =>
      match drop_white_space ws s with
      | Some rest => strip ws fuel' rest
      | None => s
      end
  end.

(** Every white space character takes at least one byte: the length of the
    text is enough fuel. *)
Definition trim_start (s : list ascii) : list ascii :=
  strip white_space (List.length s) s.

(** White space at the end, read backwards: the reversed text starts with
    the reversed byte sequence. *)
Definition trim_end (s : list ascii) : list ascii :=
  List.rev (strip (List.map (@List.rev nat) white_space) (List.length s) (List.rev s)).

Definition trim (s : list ascii) : list ascii := trim_end (trim_start s).

(** The longest prefix of characters satisfying [p], and the rest. *)
Fixpoint span (p : ascii → bool) (s : list ascii) : list ascii * list ascii :=
  match s with
  | [] => ([], [])
  | c :: s' =>
      if p c then let '(a, b) := span p s' in (c :: a, b) else ([], s)
  end.

Definition nonempty {A} (l : list A) : bool :=
  match l with [] => false | _ :: _ => true end.

Definition all_digits (p : ascii → bool) (s : list ascii) : bool :=
  nonempty s && forallb p s.

Definition is_sign (c : ascii) : bool :=
  (nat_of_ascii c =? 43)%nat || (nat_of_ascii c =? 45)%nat.

Definition is_char (n : nat) (c : ascii) : bool := (nat_of_ascii c =? n)%nat.

(** ExponentPart, optional: [e] or [E], an optional sign, digits. *)
Definition exponent_opt (s : list ascii) : bool :=
  match s with
  | [] => true
  | c :: s' =>
      if is_char 101 c || is_char 69 c
      then match s' with
           | d :: s'' => if is_sign d then all_digits is_digit s'' else all_digits is_digit s'
           | [] => false
           end
      else false
  end.

(** StrUnsignedDecimalLiteral: [Infinity], [digits . digits? exp?],
    [. digits exp?] or [digits exp?]. *)
Definition unsigned_decimal (s : list ascii) : bool :=
  if bool_decide (s = list_ascii_of_string "Infinity") then true
  else
    let '(int_part, rest) := span is_digit s in
    match rest with
    | c :: rest' =>
        if is_char 46 c
        then
          let '(frac_part, rest'') := span is_digit rest' in
          (nonempty int_part || nonempty frac_part) && exponent_opt rest''
        else nonempty int_part && exponent_opt rest
    | [] => nonempty int_part
    end.

(** StrDecimalLiteral: an optional sign before the unsigned literal. *)
Definition decimal (s : list ascii) : bool :=
  match s with
  | c :: s' => if is_sign c then unsigned_decimal s' else unsigned_decimal s
  | [] => false
  end.

(** NonDecimalIntegerLiteral: [0x], [0o], [0b] (either case), no sign. *)
Definition non_decimal (s : list ascii) : bool :=
  match s with
  | z :: k :: s' =>
      if is_char 48 z
      then
        if is_char 120 k || is_char 88 k then all_digits is_hex_digit s'
        else if is_char 111 k || is_char 79 k then all_digits is_octal_digit s'
        else if is_char 98 k || is_char 66 k then all_digits is_binary_digit s'
        else false
      else false
  | _ => false
  end.

(** [Number(text)] is a number (not [NaN]). *)
Definition is_numeric (text : string) : bool :=
  let s := trim (list_ascii_of_string text) in
  match s with
  | [] => true
  | _ => decimal s || non_decimal s
  end.

(** [isNaN(Number(text))]. *)
Definition isNaN_Number (text : string) : bool := negb (is_numeric text).

(** The text is exactly a sequence of decimal digits (at least one). *)
Definition only_digits (text : string) : bool :=
  all_digits is_digit (list_ascii_of_string text).

End JSNumber.

(** ** Direct-code deployment: the patient display (PeerJS) *)

Module Display.

(** The component state.  [mediaUrl] is the object URL made by
    [URL.createObjectURL(blob)]; it is modelled by the blob it designates. *)
Record State := mkState {
  instruction : option Direct.Payload;
  peerId : string;
  listening : string;
  isConnected : bool;
  mediaUrl : option Direct.Blob
}.

(** The [Blob] constructor keeps a type made of printable ASCII characters
    (U+0020 to U+007E), in lower case, and replaces any other type by the
    empty string. *)
Definition printable (c : ascii) : bool :=
  let n := nat_of_ascii c in (32 <=? n)%nat && (n <=? 126)%nat.

Definition to_lower (c : ascii) : ascii :=
  let n := nat_of_ascii c in
  if (65 <=? n)%nat && (n <=? 90)%nat then ascii_of_nat (n + 32) else c.

Definition normalize_type (type : string) : string :=
  let chars := list_ascii_of_string type in
  if forallb printable chars
  then string_of_list_ascii (List.map to_lower chars)
  else "".

(** [new Blob([buffer], { type })]. *)
Definition new_Blob (buffer : list Byte.byte) (type : string) : Direct.Blob :=
  Direct.mkBlob buffer (normalize_type type).

(** The type is one the browser gives a file: lower case printable ASCII. *)
Definition lower_case_type (type : string) : bool :=
  forallb (λ c, printable c && bool_decide (to_lower c = c)) (list_ascii_of_string type).

(** [`radio-patient-${code}`] in the mount effect. *)
Definition fullId (code : string) : string := "radio-patient-" +:+ code.

(** The mount effect, given the decimal text of the drawn code: the code is
    shown ([setPeerId(code)]) and the peer listens on [fullId]. *)
Definition mount (code : string) : State :=
  mkState None code (fullId code) false None.

(** [conn.on('open', ...)]. *)
Definition on_open (d : State) : State :=
  mkState (instruction d) (peerId d) (listening d) true (mediaUrl d).

(** [conn.on('data', ...)]. *)
Definition on_data (d : State) (data : Direct.Message) : State :=
  match data with
  | Direct.MsgInstruction payload =>
      mkState (Some payload) (peerId d) (listening d) (isConnected d) (mediaUrl d)
  | Direct.MsgClear =>
      mkState None (peerId d) (listening d) (isConnected d) (mediaUrl d)
  end.

(** [conn.on('close', ...)]. *)
Definition on_close (d : State) : State :=
  mkState None (peerId d) (listening d) false (mediaUrl d).

(** The effect that depends on [instruction]: it rebuilds the blob from the
    received buffer and publishes its URL, or resets the URL. *)
Definition media_effect (d : State) : State :=
  let url :=
    match instruction d with
    | Some i =>
        match Direct.payload_media i with
        | Some buffer =>
            Some (new_Blob buffer
                    (JS.or_string (Direct.payload_media_type i) "application/octet-stream"))
        | None => None
        end
    | None => None
    end in
  mkState (instruction d) (peerId d) (listening d) (isConnected d) url.

(** A message arrives and the component re-renders. *)
Definition receive (d : State) (data : Direct.Message) : State :=
  media_effect (on_data d data).

Definition receive_all (d : State) (msgs : list Direct.Message) : State :=
  foldl receive d msgs.

Inductive MediaKind := Image | Video.

(** The element chosen for the media:
    [instruction.media_type?.startsWith('video/') ? <video> : <img>]. *)
Definition media_kind (media_type : option string) : MediaKind :=
  match media_type with
  | Some t => if JS.startsWith "video/" t then Video else Image
  | None => Image
  end.

(** The media element on screen: the blob behind [mediaUrl] and the kind of
    element that plays it; [None] when no media is rendered. *)
Definition rendered_media (d : State) : option (Direct.Blob * MediaKind) :=
  match instruction d, mediaUrl d with
  | Some i, Some blob => Some (blob, media_kind (Direct.payload_media_type i))
  | _, _ => None
  end.

(** The [<h1>] with the step's text is rendered:
    [(!mediaUrl || isNaN(Number(instruction.name)))], inside the branch
    where an instruction is shown. *)
Definition label_shown (d : State) : bool :=
  match instruction d with
  | Some i =>
      negb (bool_decide (is_Some (mediaUrl d)))
      || JSNumber.isNaN_Number (Direct.payload_name i)
  | None => false
  end.

(** The idle presentation is on screen. *)
Definition idle (d : State) : bool :=
  negb (bool_decide (is_Some (instruction d))).

End Display.

(** ** Room-relayed deployment: staff console, server and display *)

Module Relay.

(** [interface Instruction] of [pages/StaffDashboard.tsx] and of the socket
    based display: a row of the [instructions] table. *)
Record Instruction := mkInstruction {
  id : string;
  scenario_id : string;
  name : string;
  media_url : option string;
  media_type : option string;
  bg_color : string
}.

Abbreviation SocketId := string.

(** What the console emits on its socket. *)
Inductive Emit :=
| EmitSendInstruction (instruction : Instruction)
| EmitClearInstruction.

(** The console's [socket] prop ([Socket | null]) and its
    [patientConnected] flag. *)
Record Link := mkLink {
  socket : option SocketId;
  patientConnected : bool
}.

(** [socket?.emit('send_instruction', inst)]. *)
Definition sendInstruction (lk : Link) (inst : Instruction) : list Emit :=
  match socket lk with
  | Some _ => [EmitSendInstruction inst]
  | None => []
  end.

(** [socket?.emit('clear_instruction')]. *)
Definition clearInstruction (lk : Link) : list Emit :=
  match socket lk with
  | Some _ => [EmitClearInstruction]
  | None => []
  end.

Abbreviation Staff := (Staff Instruction Link).

Definition startSession : Staff → string → Staff * list Emit :=
  startSession sendInstruction.
Definition endSession : Staff → Staff * list Emit :=
  endSession clearInstruction.
Definition goToStep : Staff → Z → Staff * list Emit :=
  goToStep sendInstruction.
Definition advance : Z → Staff → Staff * list Emit :=
  advance sendInstruction.
Definition run : Staff → list Action → Staff * list Emit :=
  run sendInstruction clearInstruction.

(** [socket.on('patient_status', (data) => setPatientConnected(data.connected))]. *)
Definition on_patient_status (connected : bool) (st : Staff) : Staff :=
  setLink (mkLink (socket (link st)) connected) st.

(** *** The server *)

(** The argument of a socket event has type [any]. *)
Inductive any :=
| Undefined
| Null
| Boolean (b : bool)
| Number (n : Z)
| Text (s : string)
| Object (o : Instruction).

(** [if (v)]. *)
Definition truthy (v : any) : bool :=
  match v with
  | Undefined | Null => false
  | Boolean b => b
  | Number n => negb (n =? 0)
  | Text s => JS.truthy_string s
  | Object _ => true
  end.

(** [v && v.id]: a primitive has no [id]. *)
Definition truthy_id (v : any) : option string :=
  match v with
  | Object o => if JS.truthy_string (id o) then Some (id o) else None
  | _ => None
  end.

Inductive Target :=
| ToAll
| ToSocket (socket : SocketId)
| ToRoom (room : string).

Inductive ServerEvent :=
| PatientStatus (connected : bool)
| PlayInstruction (instruction : any)
| ClearInstructionEvent
| HistoryUpdated.

(** The module variables [patientConnected] and [currentInstruction], the
    rooms of the adapter and the instruction ids logged to [history]. *)
Record Server := mkServer {
  srv_patientConnected : bool;
  currentInstruction : any;
  rooms : gmap string (gset SocketId);
  history : list string
}.

(** The process as started: [let patientConnected = false;
    let currentInstruction = null]. *)
Definition boot : Server := mkServer false Null ∅ [].

(** [socket.join(room)]. *)
Definition join (room : string) (s : SocketId) (rs : gmap string (gset SocketId))
  : gmap string (gset SocketId) :=
  <[room := {[s]} ∪ default ∅ (rs !! room)]> rs.

(** A closed socket leaves its rooms; the adapter deletes a room that
    becomes empty. *)
Definition leave_all (s : SocketId) (rs : gmap string (gset SocketId))
  : gmap string (gset SocketId) :=
  filter (λ kv, kv.2 ≠ ∅) ((λ members, members ∖ {[s]}) <$> rs).

Definition register_role (srv : Server) (s : SocketId) (role : string)
  : Server * list (Target * ServerEvent) :=
  if bool_decide (role = "patient") then
    (mkServer true (currentInstruction srv) (join "patient_room" s (rooms srv)) (history srv),
     ((ToAll, PatientStatus true) ::
      (if truthy (currentInstruction srv)
       then [(ToSocket s, PlayInstruction (currentInstruction srv))]
       else []))%list)
  else if bool_decide (role = "staff") then
    (mkServer (srv_patientConnected srv) (currentInstruction srv)
       (join "staff_room" s (rooms srv)) (history srv),
     [(ToSocket s, PatientStatus (srv_patientConnected srv))])
  else (srv, []).

Definition send_instruction (srv : Server) (instruction : any)
  : Server * list (Target * ServerEvent) :=
  let history' :=
    match truthy_id instruction with
    | Some instruction_id => (history srv ++ [instruction_id])%list
    | None => history srv
    end in
  (mkServer (srv_patientConnected srv) instruction (rooms srv) history',
   [(ToRoom "patient_room", PlayInstruction instruction);
    (ToRoom "staff_room", HistoryUpdated)]).

Definition clear_instruction (srv : Server) : Server * list (Target * ServerEvent) :=
  (mkServer (srv_patientConnected srv) Null (rooms srv) (history srv),
   [(ToRoom "patient_room", ClearInstructionEvent)]).

(** The socket closes: it is out of its rooms when [disconnect] fires; the
    handler only arms a timer. *)
Definition disconnect (srv : Server) (s : SocketId) : Server * list (Target * ServerEvent) :=
  (mkServer (srv_patientConnected srv) (currentInstruction srv)
     (leave_all s (rooms srv)) (history srv), []).

(** The callback of [setTimeout(..., 1000)] armed by [disconnect]. *)
Definition disconnect_timeout (srv : Server) : Server * list (Target * ServerEvent) :=
  let isPatientConnected :=
    match rooms srv !! "patient_room" with
    | Some patientRoom => (0 <? size patientRoom)%nat
    | None => false
    end in
  if negb (Bool.eqb (srv_patientConnected srv) isPatientConnected)
  then (mkServer isPatientConnected (currentInstruction srv) (rooms srv) (history srv),
        [(ToAll, PatientStatus isPatientConnected)])
  else (srv, []).

(** What reaches the server, in order. *)
Inductive Input :=
| RegisterRole (s : SocketId) (role : string)
| SendInstruction (instruction : any)
| ClearInstruction
| Disconnect (s : SocketId)
| DisconnectTimeout.

Definition handle (srv : Server) (i : Input) : Server * list (Target * ServerEvent) :=
  match i with
  | RegisterRole s role => register_role srv s role
  | SendInstruction instruction => send_instruction srv instruction
  | ClearInstruction => clear_instruction srv
  | Disconnect s => disconnect srv s
  | DisconnectTimeout => disconnect_timeout srv
  end.

(** The server after a history of inputs. *)
Definition serve (srv : Server) (inputs : list Input) : Server :=
  foldl (λ srv i, (handle srv i).1) srv inputs.

(** The console's emits as server inputs: the instruction arrives as the
    object that was emitted. *)
Definition input_of_emit (e : Emit) : Input :=
  match e with
  | EmitSendInstruction inst => SendInstruction (Object inst)
  | EmitClearInstruction => ClearInstruction
  end.

(** The payload of the most recent [send_instruction] that no
    [clear_instruction] has followed, [null] otherwise: the history is read
    from its latest input backwards. *)
Fixpoint latest_instruction_rev (newest_first : list Input) : any :=
  match newest_first with
  | [] => Null
  | SendInstruction instruction :: _ => instruction
  | ClearInstruction :: _ => Null
  | _ :: older => latest_instruction_rev older
  end.

Definition latest_instruction (inputs : list Input) : any :=
  latest_instruction_rev (List.rev inputs).

(** *** The socket based display *)

(** The display's [instruction] state after an event:
    [socket.on('play_instruction', (data) => setInstruction(data))] and
    [socket.on('clear_instruction', () => setInstruction(null))]; the other
    events have no handler on the display. *)
Definition display_receive (shown : any) (ev : ServerEvent) : any :=
  match ev with
  | PlayInstruction data => data
  | ClearInstructionEvent => Null
  | PatientStatus _ | HistoryUpdated => shown
  end.

(** [(!instruction.media_url || isNaN(Number(instruction.name)))]. *)
Definition label_shown (instruction : Instruction) : bool :=
  negb (JS.truthy_nullable (media_url instruction))
  || JSNumber.isNaN_Number (name instruction).

End Relay.

(** ** The numbers of [Math.floor(1000 + Math.random() * 9000)]

    A JavaScript number is an IEEE 754 binary64 value.  The finite
    non-negative ones are the multiples [n * 2^-1074] whose significand fits
    53 bits; such a value is represented by the integer [n].  Arithmetic is
    the exact result rounded to nearest, ties to even.  Overflow to
    [Infinity] (beyond [2^1024]) is not represented: the values met here stay
    below [2^14]. *)

Module Float64.

Definition one : Z := 2 ^ 1074.

(** The nearest multiple of [2^g] to [n], ties to the even multiple. *)
Definition nearest_even (g n : Z) : Z :=
  if g <=? 0 then n
  else
    let q := n / 2 ^ g in
    let r := n mod 2 ^ g in
    let half := 2 ^ (g - 1) in
    if r <? half then q * 2 ^ g
    else if half <? r then (q + 1) * 2 ^ g
    else if Z.even q then q * 2 ^ g
    else (q + 1) * 2 ^ g.

(** Rounding of an exact result [n * 2^-(1074 + fine)] to 53 significant
    bits, and no finer than the subnormal spacing [2^-1074]: the result is a
    multiple of [2^fine] in the units of [n]. *)
Definition round_at (fine n : Z) : Z :=
  nearest_even (Z.max fine (Z.log2 n - 52)) n.

(** The binary64 nearest to [n * 2^-1074]. *)
Definition round (n : Z) : Z := round_at 0 n.

(** [n * 2^-1074] is a binary64 value. *)
Definition representable (n : Z) : bool := (0 <=? n) && (round n =? n).

(** The number written as the integer literal [k]. *)
Definition of_int (k : Z) : Z := round (k * one).

(** [x + y]. *)
Definition add (x y : Z) : Z := round (x + y).

(** [x * y]: the exact product is [x * y * 2^-2148]. *)
Definition mul (x y : Z) : Z := round_at 1074 (x * y) / one.

(** [Math.floor(x)], as an integer. *)
Definition floor (x : Z) : Z := x / one.

(** A result of [Math.random()]: a number [r] with [0 <= r < 1]. *)
Definition is_random (r : Z) : Prop := representable r = true ∧ r < one.

(** The largest number below 1, [1 - 2^-53]. *)
Definition below_one : Z := (2 ^ 53 - 1) * 2 ^ 1021.

End Float64.

(** ** The pairing code of the display *)

Module PairingCode.

(** [Math.floor(1000 + Math.random() * 9000)] for the drawn number [r]. *)
Definition code_number (r : Z) : Z :=
  Float64.floor (Float64.add (Float64.of_int 1000) (Float64.mul r (Float64.of_int 9000))).

(** [code_number.toString()]: the decimal digits of the integer. *)
Definition code (r : Z) : string := pretty (code_number r).

(** The identifier the display listens on: [new Peer(fullId)]. *)
Definition display_fullId (r : Z) : string := Display.listening (Display.mount (code r)).

(** The identifier the console dials when the operator has typed [typed]
    and submits the form, if it dials at all. *)
Definition console_fullId (st : Direct.Staff) (typed : string) : option string :=
  let st' := setLink (Direct.mkLink typed (Direct.isConnecting (link st))
                        (Direct.patientConnected (link st)) (Direct.peerRef (link st))
                        (Direct.connRef (link st))) st in
  Direct.conn_peer <$> (Direct.connectToPatient st').2.

(** The text is four decimal digits. *)
Definition four_digits (text : string) : bool :=
  (String.length text =? 4)%nat
  && forallb JSNumber.is_digit (list_ascii_of_string text).

End PairingCode.

(** ** Sample data: the scenario of the specification's walk-through *)

Module Sample.

Definition png : Direct.Blob :=
  Direct.mkBlob [Byte.x89; Byte.x50; Byte.x4e; Byte.x47] "image/png".

Definition step1 : Direct.Instruction :=
  Direct.mkInstruction "i-1" "thorax" "Étape 1" None None "bg-slate-900".
Definition step2 : Direct.Instruction :=
  Direct.mkInstruction "i-2" "thorax" "2" (Some png) (Some "image/png") "bg-slate-900".
Definition step3 : Direct.Instruction :=
  Direct.mkInstruction "i-3" "thorax" "1.5" (Some png) (Some "image/png") "bg-slate-900".

(** A scenario "thorax" with three steps and a scenario with none. *)
Definition scenarios : gmap string (list Direct.Instruction) :=
  <["thorax" := [step1; step2; step3]]> (<["empty" := []]> ∅).

Definition unlinked : Direct.Link := Direct.mkLink "" false false true None.
Definition linked : Direct.Link :=
  Direct.mkLink "4821" false true true (Some (Direct.mkConn (Direct.fullId "4821"))).

(** The console, paired, before any session. *)
Definition console : Direct.Staff := initial scenarios linked.

Definition row1 : Relay.Instruction :=
  Relay.mkInstruction "r-1" "thorax" "1" None None "bg-blue-500".
Definition row2 : Relay.Instruction :=
  Relay.mkInstruction "r-2" "thorax" "2" (Some "/uploads/a.png") (Some "image") "bg-blue-500".

Definition relay_scenarios : gmap string (list Relay.Instruction) :=
  <["thorax" := [row1; row2]]> (<["empty" := []]> ∅).

Definition relay_console : Relay.Staff :=
  initial relay_scenarios (Relay.mkLink (Some "staff-socket") false).

End Sample.

(** ** The local instruction store of the direct-code deployment ([lib/db.ts])

    The two [localforage] instances are maps from keys to stored objects.
    [keys()] lists the keys in the order of the storage backend; the lists
    below are in the order of the map's enumeration, and the properties
    proved about them do not depend on that order.  [uuidv4()] is a supply
    of identifiers: [uuid k] is the [k]-th identifier an operation draws.
    The operations are taken as atomic (each one awaits its store calls in
    sequence). *)

Module Store.

(** [interface Scenario]. *)
Record Scenario := mkScenario {
  id : string;
  name : string
}.

Record DB := mkDB {
  scenariosStore : gmap string Scenario;
  instructionsStore : gmap string Direct.Instruction
}.

Definition empty : DB := mkDB ∅ ∅.

(** [await store.keys()]. *)
Definition keys {V} (store : gmap string V) : list string := (map_to_list store).*1.

(** The loop [for (const key of keys) { const x = await store.getItem(key);
    if (x) out.push(x) }] over all keys. *)
Definition items {V} (store : gmap string V) : list V :=
  omap (λ key, store !! key) (keys store).

(** The step [createScenario] stores at iteration [i]:
    [`Étape ${i + 1}`], no media, the dark background. *)
Definition placeholder (scenarioId stepId : string) (i : nat) : Direct.Instruction :=
  Direct.mkInstruction stepId scenarioId ("Étape " +:+ pretty (Z.of_nat i + 1))
    None None "bg-slate-900".

(** The number of iterations of [for (let i = 0; i < stepsCount; i++)] for
    a [stepsCount] that is an integer or [NaN] ([None]), as [parseInt]
    returns. *)
Definition iterations (stepsCount : option Z) : nat :=
  match stepsCount with
  | Some n => Z.to_nat n
  | None => O
  end.

(** [createScenario(name, stepsCount)]: the scenario takes the first
    identifier drawn, the step of iteration [i] the next one. *)
Definition createScenario (db : DB) (uuid : nat → string) (name : string)
    (stepsCount : option Z) : DB * Scenario :=
  let scenario := mkScenario (uuid O) name in
  let scenarios := <[id scenario := scenario]> (scenariosStore db) in
  let instructions :=
    foldl (λ store i, <[uuid (S i) := placeholder (id scenario) (uuid (S i)) i]> store)
      (instructionsStore db) (seq 0 (iterations stepsCount)) in
  (mkDB scenarios instructions, scenario).

(** [deleteScenario(id)]: the scenario is removed, then every key of the
    instruction store is visited and removed when its item belongs to the
    scenario. *)
Definition deleteScenario (db : DB) (scenarioId : string) : DB :=
  let scenarios := delete scenarioId (scenariosStore db) in
  let instructions :=
    foldl (λ store key,
             match store !! key with
             | Some inst =>
                 if bool_decide (Direct.scenario_id inst = scenarioId)
                 then delete key store
                 else store
             | None => store
             end)
      (instructionsStore db) (keys (instructionsStore db)) in
  mkDB scenarios instructions.

(** [getInstructions(scenarioId)]. *)
Definition getInstructions (db : DB) (scenarioId : string) : list Direct.Instruction :=
  filter (λ inst, Direct.scenario_id inst = scenarioId) (items (instructionsStore db)).

(** [createInstruction(scenarioId, name)]. *)
Definition createInstruction (db : DB) (uuid : nat → string) (scenarioId name : string)
  : DB * Direct.Instruction :=
  let inst := Direct.mkInstruction (uuid O) scenarioId name None None "bg-slate-900" in
  (mkDB (scenariosStore db) (<[Direct.id inst := inst]> (instructionsStore db)), inst).

(** [Partial<Instruction>]: each field is present or not; a nullable field
    that is present may be [null]. *)
Record Partial := mkPartial {
  p_id : option string;
  p_scenario_id : option string;
  p_name : option string;
  p_media : option (option Direct.Blob);
  p_media_type : option (option string);
  p_bg_color : option string
}.

(** [{ ...inst, ...data }]. *)
Definition spread (inst : Direct.Instruction) (data : Partial) : Direct.Instruction :=
  Direct.mkInstruction
    (default (Direct.id inst) (p_id data))
    (default (Direct.scenario_id inst) (p_scenario_id data))
    (default (Direct.name inst) (p_name data))
    (default (Direct.media inst) (p_media data))
    (default (Direct.media_type inst) (p_media_type data))
    (default (Direct.bg_color inst) (p_bg_color data)).

(** [updateInstruction(id, data)]. *)
Definition updateInstruction (db : DB) (instructionId : string) (data : Partial) : DB :=
  match instructionsStore db !! instructionId with
  | Some inst =>
      mkDB (scenariosStore db) (<[instructionId := spread inst data]> (instructionsStore db))
  | None => db
  end.

(** [deleteInstruction(id)]. *)
Definition deleteInstruction (db : DB) (instructionId : string) : DB :=
  mkDB (scenariosStore db) (delete instructionId (instructionsStore db)).

(** Every item is stored under its own id, and the media type recorded for
    a step is the type of its media file. *)
Definition well_formed (db : DB) : Prop :=
  (∀ key s, scenariosStore db !! key = Some s → id s = key)
  ∧ (∀ key inst, instructionsStore db !! key = Some inst →
       Direct.id inst = key
       ∧ Direct.media_type inst = Direct.blob_type <$> Direct.media inst).

(** The identifiers drawn are new and differ from each other. *)
Definition fresh (uuid : nat → string) (db : DB) : Prop :=
  (∀ i j, uuid i = uuid j → i = j)
  ∧ (∀ i, scenariosStore db !! uuid i = None)
  ∧ (∀ i, instructionsStore db !! uuid i = None)
  ∧ (∀ i key inst, instructionsStore db !! key = Some inst →
       Direct.scenario_id inst ≠ uuid i).

End Store.

(** ** Editing on the direct-code console *)

Module Editor.

(** What [handleSaveInstruction] reads from the form: the text, whether
    [remove_media] is checked, and the chosen file, if the form has a file
    input. *)
Record Form := mkForm {
  form_name : string;
  form_remove_media : bool;
  form_media : option Direct.Blob
}.

(** [file && file.size > 0]. *)
Definition chosen_file (form : Form) : option Direct.Blob :=
  match form_media form with
  | Some file => if (0 <? JS.length (Direct.blob_bytes file)) then Some file else None
  | None => None
  end.

(** [handleSaveInstruction(e, instructionId?, scenarioId?)], up to the
    reload of the lists.  An absent or empty id is falsy. *)
Definition handleSaveInstruction (db : Store.DB) (uuid : nat → string) (form : Form)
    (instructionId scenarioId : option string) : Store.DB :=
  if JS.truthy_nullable instructionId then
    let updateData :=
      if form_remove_media form then
        Store.mkPartial None None (Some (form_name form)) (Some None) (Some None) None
      else
        match chosen_file form with
        | Some file =>
            Store.mkPartial None None (Some (form_name form)) (Some (Some file))
              (Some (Some (Direct.blob_type file))) None
        | None => Store.mkPartial None None (Some (form_name form)) None None None
        end in
    Store.updateInstruction db (default "" instructionId) updateData
  else if JS.truthy_nullable scenarioId then
    let '(db1, newInst) :=
      Store.createInstruction db uuid (default "" scenarioId) (form_name form) in
    match chosen_file form with
    | Some file =>
        Store.updateInstruction db1 (Direct.id newInst)
          (Store.mkPartial None None None (Some (Some file))
             (Some (Some (Direct.blob_type file))) None)
    | None => db1
    end
  else db.

(** The map [fetchScenarios] builds: for each stored scenario,
    [instMap[scenario.id] = await db.getInstructions(scenario.id)]. *)
Definition instMap (db : Store.DB) : gmap string (list Direct.Instruction) :=
  foldl (λ m scenario, <[Store.id scenario := Store.getInstructions db (Store.id scenario)]> m)
    ∅ (Store.items (Store.scenariosStore db)).

(** [fetchScenarios], on the state of the model: the step lists are
    replaced, the session and the link are as they were. *)
Definition fetchScenarios (db : Store.DB) (st : Direct.Staff) : Direct.Staff :=
  mkStaff (instMap db) (link st) (viewMode st) (activeScenarioId st) (currentStepIndex st).

End Editor.

(** ** Media kinds of the room-relayed deployment *)

Module Upload.

(** The [PUT /api/instructions/:id] handler stores, for an uploaded file,
    [file.mimetype.startsWith('video/') ? 'video' : 'image']. *)
Definition stored_media_type (mimetype : string) : string :=
  if JS.startsWith "video/" mimetype then "video" else "image".

(** The socket based display renders
    [instruction.media_type === 'video' ? <video> : <img>]. *)
Definition display_kind (media_type : option string) : Display.MediaKind :=
  match media_type with
  | Some t => if bool_decide (t = "video") then Display.Video else Display.Image
  | None => Display.Image
  end.

End Upload.

(** ** Sample data: a small instruction store *)

Module SampleStore.

(** Identifiers not yet in the store. *)
Definition uuid (k : nat) : string := "id-" +:+ pretty (Z.of_nat k).

Definition scan : Direct.Blob := Direct.mkBlob [Byte.x47; Byte.x49; Byte.x46] "image/gif".

Definition knee1 : Direct.Instruction :=
  Direct.mkInstruction "k-1" "knee" "Étape 1" None None "bg-slate-900".
Definition knee2 : Direct.Instruction :=
  Direct.mkInstruction "k-2" "knee" "Étape 2" (Some scan) (Some "image/gif") "bg-slate-900".
Definition hand1 : Direct.Instruction :=
  Direct.mkInstruction "h-1" "hand" "Étape 1" None None "bg-slate-900".

Definition db : Store.DB :=
  Store.mkDB
    (<["knee" := Store.mkScenario "knee" "Genou"]>
       (<["hand" := Store.mkScenario "hand" "Main"]> ∅))
    (<["k-1" := knee1]> (<["k-2" := knee2]> (<["h-1" := hand1]> ∅))).

End SampleStore.

(** * Properties *)

(** ** Facts about the JavaScript helpers *)

Lemma truthy_string_spec s : JS.truthy_string s = true ↔ s ≠ "".
Proof. destruct s; simpl; split; congruence. Qed.

Lemma index_Some_lt {A} (arr : list A) i x :
  JS.index arr i = Some x → 0 <= i < JS.length arr.
Proof.
  unfold JS.index, JS.length. destruct (Z.ltb_spec i 0); [done|].
  intros Hx%lookup_lt_Some. lia.
Qed.

Lemma index_in_range {A} (arr : list A) i :
  0 <= i < JS.length arr → is_Some (JS.index arr i).
Proof.
  unfold JS.index, JS.length. intros [H0 Hlen].
  destruct (Z.ltb_spec i 0); [lia|].
  apply lookup_lt_is_Some. lia.
Qed.

(** ** The session, whatever the transport *)

Section SessionFacts.
Context {Instr Link Msg : Type}.
Variable sendInstruction : Link → Instr → list Msg.
Variable clearInstruction : Link → list Msg.

Abbreviation StaffT := (Staff Instr Link).

Lemma startSession_state (st : StaffT) scenarioId :
  (startSession sendInstruction st scenarioId).1
  = mkStaff (instructionsByScenario st) (link st) ViewSession (Some scenarioId) 0.
Proof. unfold startSession. by destruct (_ >? _). Qed.

Lemma startSession_out_cons (st : StaffT) scenarioId first rest :
  JS.get_or_empty (instructionsByScenario st) scenarioId = first :: rest →
  (startSession sendInstruction st scenarioId).2 = sendInstruction (link st) first.
Proof.
  intros Hsteps. unfold startSession. rewrite Hsteps.
  unfold JS.length, deliver. simpl List.length.
  destruct (Z.gtb_spec (Z.of_nat (S (List.length rest))) 0); [done | lia].
Qed.

Lemma startSession_out_nil (st : StaffT) scenarioId :
  JS.get_or_empty (instructionsByScenario st) scenarioId = [] →
  (startSession sendInstruction st scenarioId).2 = [].
Proof. intros Hsteps. unfold startSession. by rewrite Hsteps. Qed.

Lemma goToStep_idle (st : StaffT) index :
  is_active st = false → goToStep sendInstruction st index = (st, []).
Proof.
  unfold is_active, goToStep. destruct (activeScenarioId st) as [sid|]; [|done].
  simpl. by intros ->.
Qed.

Lemma goToStep_out_of_range (st : StaffT) index :
  ¬ (0 <= index < JS.length (active_steps st)) → goToStep sendInstruction st index = (st, []).
Proof.
  unfold active_steps, goToStep. intros Hout.
  destruct (activeScenarioId st) as [sid|]; [|done].
  destruct (negb _); [done|].
  destruct (Z.geb_spec index 0), (Z.ltb_spec index (JS.length (JS.get_or_empty
    (instructionsByScenario st) sid))); simpl; try done. lia.
Qed.

Lemma goToStep_in_range (st : StaffT) index inst :
  is_active st = true →
  JS.index (active_steps st) index = Some inst →
  goToStep sendInstruction st index = (setCurrentStepIndex index st, sendInstruction (link st) inst).
Proof.
  unfold is_active, active_steps, goToStep. intros Hact Hinst.
  destruct (activeScenarioId st) as [sid|]; [|done]. simpl in Hact. rewrite Hact. simpl.
  pose proof (index_Some_lt _ _ _ Hinst) as [H0 Hlen].
  destruct (Z.geb_spec index 0); [|lia].
  destruct (Z.ltb_spec index (JS.length (JS.get_or_empty (instructionsByScenario st) sid)));
    [|lia].
  simpl. unfold deliver. by rewrite Hinst.
Qed.

(** [goToStep] moves the cursor only to an index of the step list. *)
Lemma goToStep_cases (st : StaffT) index :
  (goToStep sendInstruction st index).1 = st
  ∨ ((goToStep sendInstruction st index).1 = setCurrentStepIndex index st
     ∧ is_active st = true ∧ 0 <= index < JS.length (active_steps st)).
Proof.
  destruct (is_active st) eqn:Hact; [|left; by rewrite goToStep_idle].
  destruct (decide (0 <= index < JS.length (active_steps st))) as [Hin|Hout];
    [|left; by rewrite goToStep_out_of_range].
  destruct (index_in_range _ _ Hin) as [inst Hinst].
  right. by rewrite (goToStep_in_range _ _ inst).
Qed.

Lemma cursor_ok_initial (m : gmap string (list Instr)) (lk : Link) :
  cursor_ok (initial m lk).
Proof. unfold cursor_ok, is_active. simpl. done. Qed.

Lemma cursor_ok_startSession (st : StaffT) scenarioId :
  cursor_ok (startSession sendInstruction st scenarioId).1.
Proof.
  rewrite startSession_state. unfold cursor_ok, cursor_in_bounds, active_steps.
  simpl. intros _ Hne. unfold JS.length.
  destruct (JS.get_or_empty _ _); [done | simpl List.length; lia].
Qed.

Lemma cursor_ok_goToStep (st : StaffT) index :
  cursor_ok st → cursor_ok (goToStep sendInstruction st index).1.
Proof.
  intros Hok. destruct (goToStep_cases st index) as [-> | (-> & Hact & Hin)]; [done|].
  intros _ _. unfold cursor_in_bounds. by destruct st.
Qed.

Lemma cursor_ok_endSession (st : StaffT) : cursor_ok (endSession clearInstruction st).1.
Proof. unfold cursor_ok, is_active. simpl. done. Qed.

Lemma cursor_ok_act (st : StaffT) a : cursor_ok st → cursor_ok (act sendInstruction clearInstruction st a).1.
Proof.
  destruct a; simpl; intros Hok.
  - apply cursor_ok_startSession.
  - by apply cursor_ok_goToStep.
  - by apply cursor_ok_goToStep.
  - by apply cursor_ok_goToStep.
  - apply cursor_ok_endSession.
Qed.

Lemma run_cons (st : StaffT) a rest :
  (run sendInstruction clearInstruction st (a :: rest)).1 = (run sendInstruction clearInstruction (act sendInstruction clearInstruction st a).1 rest).1.
Proof.
  cbn [run]. destruct (act sendInstruction clearInstruction st a) as [st1 out1]. simpl.
  by destruct (run sendInstruction clearInstruction st1 rest).
Qed.

Lemma cursor_ok_run (st : StaffT) actions : cursor_ok st → cursor_ok (run sendInstruction clearInstruction st actions).1.
Proof.
  revert st. induction actions as [|a rest IH]; intros st Hok; [done|].
  rewrite run_cons. by apply IH, cursor_ok_act.
Qed.

Lemma press_next_S k (st : StaffT) :
  (press_next sendInstruction (S k) st).1 = (advance sendInstruction 1 (press_next sendInstruction k st).1).1.
Proof.
  cbn [press_next]. destruct (press_next sendInstruction k st) as [st1 out1].
  simpl. by destruct (advance sendInstruction 1 st1).
Qed.

(** While steps remain, each press moves the cursor by one. *)
Lemma press_next_cursor (st : StaffT) (k : nat) :
  is_active st = true →
  0 <= currentStepIndex st →
  currentStepIndex st + Z.of_nat k < JS.length (active_steps st) →
  (press_next sendInstruction k st).1 = setCurrentStepIndex (currentStepIndex st + Z.of_nat k) st.
Proof.
  intros Hact H0. induction k as [|k IH]; intros Hlen.
  - simpl. rewrite Z.add_0_r. clear. destruct st; reflexivity.
  - rewrite press_next_S, IH by lia. unfold advance.
    assert (Hin : 0 <= currentStepIndex st + Z.of_nat (S k) < JS.length (active_steps st))
      by lia.
    destruct (index_in_range _ _ Hin) as [inst Hinst].
    simpl currentStepIndex.
    replace (currentStepIndex st + Z.of_nat k + 1)
      with (currentStepIndex st + Z.of_nat (S k)) by lia.
    by rewrite (goToStep_in_range _ _ inst).
Qed.

End SessionFacts.

(** ** The cursor of an active session *)

(** Claim C1, as stated, fails: starting the scenario that has no step makes
    the session active with the cursor at 0 and a step list of length 0, so
    the cursor is not below the length. *)
Lemma C1_counterexample_start_on_empty :
  ¬ (is_active (Direct.startSession Sample.console "empty").1 = true →
     cursor_in_bounds (Direct.startSession Sample.console "empty").1).
Proof.
  intros Hclaim. destruct Hclaim as [_ Hlt]; [reflexivity|].
  vm_compute in Hlt. discriminate.
Qed.

(** Claim C1, amended.  After any sequence of operator actions (start, jump
    to any index, next, previous, end) on a console, with either transport,
    an active session whose scenario has at least one step has
    [0 <= cursor < length(steps)]: [goToStep] ignores an index outside the
    range and [startSession] puts the cursor on the first step. *)
Theorem C1_cursor_in_bounds_on_nonempty_scenario
    {Instr Link Msg : Type}
    (sendInstruction : Link → Instr → list Msg) (clearInstruction : Link → list Msg)
    (m : gmap string (list Instr)) (lk : Link) (actions : list Action) :
  is_active (run sendInstruction clearInstruction (initial m lk) actions).1 = true →
  active_steps (run sendInstruction clearInstruction (initial m lk) actions).1 ≠ [] →
  cursor_in_bounds (run sendInstruction clearInstruction (initial m lk) actions).1.
Proof.
  intros Hact Hne.
  by apply (cursor_ok_run sendInstruction clearInstruction (initial m lk) actions
              (cursor_ok_initial m lk)).
Qed.

Lemma C1_witness :
  let st := (Direct.run Sample.console [Start "thorax"; Next; GoTo 7; Next; Next; Previous]).1 in
  is_active st = true ∧ active_steps st ≠ [] ∧ cursor_in_bounds st.
Proof.
  assert (Hact : is_active (Direct.run Sample.console
            [Start "thorax"; Next; GoTo 7; Next; Next; Previous]).1 = true)
    by reflexivity.
  assert (Hne : active_steps (Direct.run Sample.console
            [Start "thorax"; Next; GoTo 7; Next; Next; Previous]).1 ≠ [])
    by (vm_compute; discriminate).
  split; [exact Hact|]. split; [exact Hne|].
  exact (C1_cursor_in_bounds_on_nonempty_scenario
           Direct.sendInstruction Direct.clearInstruction
           Sample.scenarios Sample.linked
           [Start "thorax"; Next; GoTo 7; Next; Next; Previous] Hact Hne).
Defined.

(** ** Starting a session *)

(** Claim C2.  [startSession] on a scenario with at least one step sets the
    cursor to 0 and calls the delivery of the first step: the call is
    [sendInstruction(instructions[0])], which puts one [instruction] message
    with the first step's payload on a linked data connection (one
    [send_instruction] emit on the relay socket).  On a scenario with no
    step nothing is sent. *)
Theorem C2_start_delivers_first_step :
  (∀ (st : Direct.Staff) scenarioId first rest,
     JS.get_or_empty (instructionsByScenario st) scenarioId = first :: rest →
     currentStepIndex (Direct.startSession st scenarioId).1 = 0
     ∧ activeScenarioId (Direct.startSession st scenarioId).1 = Some scenarioId
     ∧ (Direct.startSession st scenarioId).2 = Direct.sendInstruction (link st) first
     ∧ (Direct.linked (link st) →
        (Direct.startSession st scenarioId).2
        = [Direct.MsgInstruction (Direct.payload_of first)]))
  ∧ (∀ (st : Direct.Staff) scenarioId,
     JS.get_or_empty (instructionsByScenario st) scenarioId = [] →
     (Direct.startSession st scenarioId).2 = [])
  ∧ (∀ (st : Relay.Staff) scenarioId first rest,
     JS.get_or_empty (instructionsByScenario st) scenarioId = first :: rest →
     currentStepIndex (Relay.startSession st scenarioId).1 = 0
     ∧ activeScenarioId (Relay.startSession st scenarioId).1 = Some scenarioId
     ∧ (Relay.startSession st scenarioId).2 = Relay.sendInstruction (link st) first
     ∧ (is_Some (Relay.socket (link st)) →
        (Relay.startSession st scenarioId).2 = [Relay.EmitSendInstruction first]))
  ∧ (∀ (st : Relay.Staff) scenarioId,
     JS.get_or_empty (instructionsByScenario st) scenarioId = [] →
     (Relay.startSession st scenarioId).2 = []).
Proof.
  repeat split.
  - unfold Direct.startSession. by rewrite startSession_state.
  - unfold Direct.startSession. by rewrite startSession_state.
  - by apply startSession_out_cons with rest.
  - intros [Hconn Hflag]. unfold Direct.startSession.
    rewrite (startSession_out_cons _ _ _ first rest) by done.
    unfold Direct.sendInstruction. rewrite Hflag.
    by rewrite bool_decide_eq_true_2.
  - by apply startSession_out_nil.
  - unfold Relay.startSession. by rewrite startSession_state.
  - unfold Relay.startSession. by rewrite startSession_state.
  - by apply startSession_out_cons with rest.
  - intros [s Hs]. unfold Relay.startSession.
    rewrite (startSession_out_cons _ _ _ first rest) by done.
    unfold Relay.sendInstruction. by rewrite Hs.
  - by apply startSession_out_nil.
Qed.

Lemma C2_witness :
  (JS.get_or_empty (instructionsByScenario Sample.console) "thorax"
   = [Sample.step1; Sample.step2; Sample.step3]
   ∧ Direct.linked (link Sample.console)
   ∧ (Direct.startSession Sample.console "thorax").2
     = [Direct.MsgInstruction (Direct.payload_of Sample.step1)])
  ∧ (JS.get_or_empty (instructionsByScenario Sample.console) "empty" = []
     ∧ (Direct.startSession Sample.console "empty").2 = [])
  ∧ (JS.get_or_empty (instructionsByScenario Sample.relay_console) "thorax"
     = [Sample.row1; Sample.row2]
     ∧ is_Some (Relay.socket (link Sample.relay_console))
     ∧ (Relay.startSession Sample.relay_console "thorax").2
       = [Relay.EmitSendInstruction Sample.row1])
  ∧ (JS.get_or_empty (instructionsByScenario Sample.relay_console) "empty" = []
     ∧ (Relay.startSession Sample.relay_console "empty").2 = []).
Proof.
  destruct C2_start_delivers_first_step as (Hd & Hd0 & Hr & Hr0).
  assert (Hsteps : JS.get_or_empty (instructionsByScenario Sample.console) "thorax"
                   = [Sample.step1; Sample.step2; Sample.step3]) by reflexivity.
  assert (Hlinked : Direct.linked (link Sample.console))
    by (split; [by eexists | reflexivity]).
  assert (Hnone : JS.get_or_empty (instructionsByScenario Sample.console) "empty" = [])
    by reflexivity.
  assert (Hrows : JS.get_or_empty (instructionsByScenario Sample.relay_console) "thorax"
                  = [Sample.row1; Sample.row2]) by reflexivity.
  assert (Hsocket : is_Some (Relay.socket (link Sample.relay_console))) by (by eexists).
  assert (Hrnone : JS.get_or_empty (instructionsByScenario Sample.relay_console) "empty" = [])
    by reflexivity.
  split; [|split; [|split]].
  - split; [exact Hsteps|]. split; [exact Hlinked|].
    exact (proj2 (proj2 (proj2 (Hd Sample.console "thorax" Sample.step1
                                  [Sample.step2; Sample.step3] Hsteps))) Hlinked).
  - split; [exact Hnone|]. exact (Hd0 Sample.console "empty" Hnone).
  - split; [exact Hrows|]. split; [exact Hsocket|].
    exact (proj2 (proj2 (proj2 (Hr Sample.relay_console "thorax" Sample.row1
                                  [Sample.row2] Hrows))) Hsocket).
  - split; [exact Hrnone|]. exact (Hr0 Sample.relay_console "empty" Hrnone).
Defined.

(** ** Advancing to the last step *)

(** Claim C3.  A session started on a scenario with [N >= 1] steps reaches
    cursor [N - 1] after [N - 1] presses of the next button, and one more
    press changes nothing and sends nothing, with either transport.  The
    scenario id is a UUID, never the empty string (which [goToStep] reads as
    no active scenario). *)
Theorem C3_advance_reaches_last_then_noop
    {Instr Link Msg : Type} (sendInstruction : Link → Instr → list Msg)
    (st : Staff Instr Link) (scenarioId : string) :
  scenarioId ≠ "" →
  JS.length (JS.get_or_empty (instructionsByScenario st) scenarioId) >= 1 →
  let N := JS.length (JS.get_or_empty (instructionsByScenario st) scenarioId) in
  let started := (startSession sendInstruction st scenarioId).1 in
  let last := (press_next sendInstruction (Z.to_nat (N - 1)) started).1 in
  currentStepIndex last = N - 1
  ∧ advance sendInstruction 1 last = (last, []).
Proof.
  intros Hid HN N started last.
  assert (Hact : is_active started = true).
  { subst started. rewrite startSession_state. unfold is_active. simpl.
    by apply truthy_string_spec. }
  assert (Hsteps : active_steps started
                   = JS.get_or_empty (instructionsByScenario st) scenarioId).
  { subst started. by rewrite startSession_state. }
  assert (Hcur : currentStepIndex started = 0).
  { subst started. by rewrite startSession_state. }
  assert (Hlast : last = setCurrentStepIndex (N - 1) started).
  { subst last. rewrite press_next_cursor; try done.
    - rewrite Hcur. f_equal. lia.
    - lia.
    - rewrite Hcur, Hsteps. fold N. lia. }
  split.
  - by rewrite Hlast.
  - unfold advance. apply goToStep_out_of_range.
    rewrite Hlast. replace (active_steps (setCurrentStepIndex (N - 1) started))
      with (active_steps started) by done.
    rewrite Hsteps. fold N. simpl. lia.
Qed.

Lemma C3_witness :
  "thorax" ≠ ""
  ∧ JS.length (JS.get_or_empty (instructionsByScenario Sample.console) "thorax") >= 1
  ∧ currentStepIndex
      (press_next Direct.sendInstruction 2
         (Direct.startSession Sample.console "thorax").1).1 = 2
  ∧ Direct.advance 1
      (press_next Direct.sendInstruction 2
         (Direct.startSession Sample.console "thorax").1).1
    = ((press_next Direct.sendInstruction 2
          (Direct.startSession Sample.console "thorax").1).1, []).
Proof.
  assert (Hid : "thorax" ≠ "") by discriminate.
  assert (Hlen : JS.length (JS.get_or_empty (instructionsByScenario Sample.console)
                              "thorax") >= 1)
    by (vm_compute; discriminate).
  split; [exact Hid|]. split; [exact Hlen|].
  exact (C3_advance_reaches_last_then_noop Direct.sendInstruction
           Sample.console "thorax" Hid Hlen).
Defined.

(** The walk-through of the specification on a linked console: three shows,
    nothing for the press past the last step, then the clear; the display
    ends idle.  On a console that is not linked the same actions send
    nothing. *)
Example thorax_walk_through :
  (Direct.run Sample.console [Start "thorax"; Next; Next; Next; End]).2
  = [Direct.MsgInstruction (Direct.payload_of Sample.step1);
     Direct.MsgInstruction (Direct.payload_of Sample.step2);
     Direct.MsgInstruction (Direct.payload_of Sample.step3);
     Direct.MsgClear]
  ∧ Display.idle
      (Display.receive_all (Display.mount "4821")
         (Direct.run Sample.console [Start "thorax"; Next; Next; Next; End]).2) = true
  ∧ (Direct.run (initial Sample.scenarios Sample.unlinked)
       [Start "thorax"; Next; Next; Next; End]).2 = [].
Proof. repeat split. Qed.

(** ** Ending a session *)

(** Claim C4, as stated, fails: on a linked console, [endSession] called
    while the session is already idle still calls [clearInstruction], which
    sends a [clear] message. *)
Lemma C4_counterexample_end_while_idle :
  ¬ (is_active (Direct.endSession Sample.console).1 = false →
     Direct.endSession (Direct.endSession Sample.console).1
     = ((Direct.endSession Sample.console).1, [])).
Proof. intros Hclaim. specialize (Hclaim eq_refl). vm_compute in Hclaim. discriminate. Qed.

(** Claim C4, amended.  [endSession] is idempotent on the console state: a
    second consecutive call leaves the state as the first call left it.  The
    second call repeats the clear delivery of the first (a [clear] message
    on a linked data connection, a [clear_instruction] emit on a socket);
    the receiving side is idempotent: a display that has received [clear]
    is unchanged by another one, and so is the relay server's state. *)
Theorem C4_end_idempotent_on_state :
  (∀ {Instr Link Msg : Type} (clearInstruction : Link → list Msg) (st : Staff Instr Link),
     (endSession clearInstruction (endSession clearInstruction st).1).1
     = (endSession clearInstruction st).1
     ∧ is_active (endSession clearInstruction st).1 = false
     ∧ (endSession clearInstruction (endSession clearInstruction st).1).2
       = (endSession clearInstruction st).2)
  ∧ (∀ lk, Direct.linked lk → Direct.clearInstruction lk = [Direct.MsgClear])
  ∧ (∀ lk, is_Some (Relay.socket lk) → Relay.clearInstruction lk = [Relay.EmitClearInstruction])
  ∧ (∀ d, Display.receive (Display.receive d Direct.MsgClear) Direct.MsgClear
          = Display.receive d Direct.MsgClear)
  ∧ (∀ srv, (Relay.clear_instruction (Relay.clear_instruction srv).1).1
            = (Relay.clear_instruction srv).1)
  ∧ (∀ shown, Relay.display_receive
                (Relay.display_receive shown Relay.ClearInstructionEvent)
                Relay.ClearInstructionEvent
              = Relay.display_receive shown Relay.ClearInstructionEvent).
Proof.
  split; [|split; [|split; [|split; [|split]]]].
  - intros Instr Link Msg clearInstruction st. by destruct st.
  - intros lk [Hconn Hflag]. unfold Direct.clearInstruction.
    by rewrite Hflag, bool_decide_eq_true_2.
  - intros lk [s Hs]. unfold Relay.clearInstruction. by rewrite Hs.
  - by intros [].
  - by intros [].
  - done.
Qed.

Lemma C4_witness :
  (Direct.linked Sample.linked
   ∧ Direct.clearInstruction Sample.linked = [Direct.MsgClear])
  ∧ (is_Some (Relay.socket (link Sample.relay_console))
     ∧ Relay.clearInstruction (link Sample.relay_console) = [Relay.EmitClearInstruction]).
Proof.
  destruct C4_end_idempotent_on_state as (_ & Hd & Hr & _).
  assert (Hlinked : Direct.linked Sample.linked) by (split; [by eexists | reflexivity]).
  assert (Hsocket : is_Some (Relay.socket (link Sample.relay_console))) by (by eexists).
  split.
  - split; [exact Hlinked | exact (Hd _ Hlinked)].
  - split; [exact Hsocket | exact (Hr _ Hsocket)].
Defined.

(** ** Losing the transport in the middle of a session *)

(** Claim C7.  The [close] event of the data connection changes only the
    connectivity of the console ([patientConnected] becomes [false] and the
    connection reference is dropped): the active scenario id, the cursor,
    the step lists and the view are unchanged, so that once a connection is
    open again the current step is re-sent by [goToStep] on the current
    index.  In the relay deployment the server's [disconnect] handler and
    its timer leave the stored current instruction unchanged, and the
    status event leaves the console's session unchanged. *)
Theorem C7_transport_lost_keeps_session (st : Direct.Staff) :
  is_active st = true →
  Direct.patientConnected (link (Direct.on_close st)) = false
  ∧ Direct.connRef (link (Direct.on_close st)) = None
  ∧ activeScenarioId (Direct.on_close st) = activeScenarioId st
  ∧ currentStepIndex (Direct.on_close st) = currentStepIndex st
  ∧ instructionsByScenario (Direct.on_close st) = instructionsByScenario st
  ∧ active_steps (Direct.on_close st) = active_steps st
  ∧ viewMode (Direct.on_close st) = viewMode st
  ∧ (∀ conn inst,
       JS.index (active_steps st) (currentStepIndex st) = Some inst →
       Direct.goToStep (Direct.on_open conn (Direct.on_close st)) (currentStepIndex st)
       = (Direct.on_open conn (Direct.on_close st),
          [Direct.MsgInstruction (Direct.payload_of inst)]))
  ∧ (∀ srv s,
       Relay.currentInstruction (Relay.disconnect srv s).1 = Relay.currentInstruction srv
       ∧ Relay.currentInstruction (Relay.disconnect_timeout srv).1
         = Relay.currentInstruction srv)
  ∧ (∀ (rst : Relay.Staff) connected,
       activeScenarioId (Relay.on_patient_status connected rst) = activeScenarioId rst
       ∧ currentStepIndex (Relay.on_patient_status connected rst) = currentStepIndex rst
       ∧ instructionsByScenario (Relay.on_patient_status connected rst)
         = instructionsByScenario rst).
Proof.
  intros Hact. repeat split.
  - intros conn inst Hinst.
    unfold Direct.goToStep.
    rewrite (goToStep_in_range _ _ _ inst); [by destruct st | done | done].
  - unfold Relay.disconnect_timeout. by destruct (negb _).
Qed.

Lemma C7_witness :
  let st := (Direct.run Sample.console [Start "thorax"; Next]).1 in
  is_active st = true
  ∧ Direct.patientConnected (link (Direct.on_close st)) = false
  ∧ activeScenarioId (Direct.on_close st) = Some "thorax"
  ∧ currentStepIndex (Direct.on_close st) = 1.
Proof.
  pose proof (C7_transport_lost_keeps_session
                (Direct.run Sample.console [Start "thorax"; Next]).1 eq_refl)
    as (Hflag & _ & Hid & Hcur & _).
  split; [reflexivity|]. split; [exact Hflag|]. split; [exact Hid | exact Hcur].
Defined.

(** ** The relay server's current instruction *)

Lemma serve_snoc srv inputs i :
  Relay.serve srv (inputs ++ [i]) = (Relay.handle (Relay.serve srv inputs) i).1.
Proof. unfold Relay.serve. by rewrite foldl_app. Qed.

Lemma latest_instruction_snoc inputs i :
  Relay.latest_instruction (inputs ++ [i])
  = match i with
    | Relay.SendInstruction instruction => instruction
    | Relay.ClearInstruction => Relay.Null
    | _ => Relay.latest_instruction inputs
    end.
Proof.
  unfold Relay.latest_instruction. rewrite rev_app_distr. simpl. by destruct i.
Qed.

Lemma handle_currentInstruction srv i :
  Relay.currentInstruction (Relay.handle srv i).1
  = match i with
    | Relay.SendInstruction instruction => instruction
    | Relay.ClearInstruction => Relay.Null
    | _ => Relay.currentInstruction srv
    end.
Proof.
  destruct i as [s role| | |s|]; simpl; try done.
  - unfold Relay.register_role. by repeat case_bool_decide.
  - unfold Relay.disconnect_timeout. by destruct (negb _).
Qed.

Lemma currentInstruction_latest inputs :
  Relay.currentInstruction (Relay.serve Relay.boot inputs)
  = Relay.latest_instruction inputs.
Proof.
  induction inputs as [|i inputs IH] using rev_ind; [done|].
  rewrite serve_snoc, latest_instruction_snoc, handle_currentInstruction.
  by destruct i.
Qed.

(** Claim C5.  Replay on join: when the most recent [send_instruction] that
    no [clear_instruction] has followed carried the instruction [o], a
    socket that registers as ['patient'] is sent, by the registration
    itself, [play_instruction] with [o] (after the status broadcast), and a
    display that handles it shows [o]. *)
Theorem C5_replay_on_join (inputs : list Relay.Input) (s : Relay.SocketId)
    (o : Relay.Instruction) :
  Relay.latest_instruction inputs = Relay.Object o →
  (Relay.register_role (Relay.serve Relay.boot inputs) s "patient").2
  = [(Relay.ToAll, Relay.PatientStatus true);
     (Relay.ToSocket s, Relay.PlayInstruction (Relay.Object o))]
  ∧ ∀ shown, Relay.display_receive shown (Relay.PlayInstruction (Relay.Object o))
             = Relay.Object o.
Proof.
  intros Hlatest. split; [|done].
  unfold Relay.register_role. rewrite bool_decide_eq_true_2 by done.
  rewrite currentInstruction_latest, Hlatest. done.
Qed.

(** The reconnect scenario: the console starts the session, the display's
    socket closes, a new display socket registers. *)
Lemma C5_witness :
  let shown := Relay.input_of_emit <$> (Relay.startSession Sample.relay_console "thorax").2 in
  let inputs :=
    ([Relay.RegisterRole "staff-socket" "staff";
      Relay.RegisterRole "display-1" "patient"]
     ++ shown
     ++ [Relay.Disconnect "display-1"; Relay.DisconnectTimeout])%list in
  Relay.latest_instruction inputs = Relay.Object Sample.row1
  ∧ (Relay.register_role (Relay.serve Relay.boot inputs) "display-2" "patient").2
    = [(Relay.ToAll, Relay.PatientStatus true);
       (Relay.ToSocket "display-2", Relay.PlayInstruction (Relay.Object Sample.row1))].
Proof.
  split; [reflexivity|].
  refine (proj1 (C5_replay_on_join _ "display-2" Sample.row1 _)).
  reflexivity.
Defined.

(** Claim C10.  The server's [currentInstruction] is, after any history of
    inputs, the payload of the most recent [send_instruction] that no
    [clear_instruction] has followed, and [null] if there is none; so a
    display that registers when there is none (after a [clear_instruction],
    or before any [send_instruction]) is sent no [play_instruction]. *)
Theorem C10_current_instruction_is_latest (inputs : list Relay.Input) :
  Relay.currentInstruction (Relay.serve Relay.boot inputs) = Relay.latest_instruction inputs
  ∧ (∀ s, Relay.latest_instruction inputs = Relay.Null →
          (Relay.register_role (Relay.serve Relay.boot inputs) s "patient").2
          = [(Relay.ToAll, Relay.PatientStatus true)])
  ∧ (∀ s, (Relay.register_role
             (Relay.serve Relay.boot (inputs ++ [Relay.ClearInstruction])) s "patient").2
          = [(Relay.ToAll, Relay.PatientStatus true)])
  ∧ (∀ s, (Relay.register_role Relay.boot s "patient").2
          = [(Relay.ToAll, Relay.PatientStatus true)]).
Proof.
  split; [apply currentInstruction_latest|].
  assert (Hnull : ∀ l s, Relay.latest_instruction l = Relay.Null →
            (Relay.register_role (Relay.serve Relay.boot l) s "patient").2
            = [(Relay.ToAll, Relay.PatientStatus true)]).
  { intros l s Hlatest. unfold Relay.register_role.
    rewrite bool_decide_eq_true_2 by done.
    by rewrite currentInstruction_latest, Hlatest. }
  split; [exact (Hnull inputs)|]. split; [|done].
  intros s. apply Hnull. by rewrite latest_instruction_snoc.
Qed.

Lemma C10_witness :
  let inputs :=
    [Relay.RegisterRole "staff-socket" "staff";
     Relay.SendInstruction (Relay.Object Sample.row1);
     Relay.SendInstruction (Relay.Object Sample.row2);
     Relay.ClearInstruction;
     Relay.RegisterRole "staff-2" "staff"] in
  Relay.latest_instruction inputs = Relay.Null
  ∧ (Relay.register_role (Relay.serve Relay.boot inputs) "display-1" "patient").2
    = [(Relay.ToAll, Relay.PatientStatus true)].
Proof.
  split; [reflexivity|].
  refine (proj1 (proj2 (C10_current_instruction_is_latest _)) "display-1" _).
  reflexivity.
Defined.

(** ** Binary64 rounding is monotone *)

Lemma nearest_even_mono g a b :
  a <= b → Float64.nearest_even g a <= Float64.nearest_even g b.
Proof.
  intros Hab. unfold Float64.nearest_even. destruct (Z.leb_spec g 0); [done|].
  assert (HE : 0 < 2 ^ g) by (apply Z.pow_pos_nonneg; lia).
  assert (Hhalf : 2 ^ g = 2 * 2 ^ (g - 1)).
  { rewrite <- Z.pow_succ_r by lia. f_equal. lia. }
  pose proof (Z.div_mod a (2 ^ g) ltac:(lia)) as Ha.
  pose proof (Z.mod_pos_bound a (2 ^ g) HE) as Hra.
  pose proof (Z.div_mod b (2 ^ g) ltac:(lia)) as Hb.
  pose proof (Z.mod_pos_bound b (2 ^ g) HE) as Hrb.
  assert (Hq : a / 2 ^ g <= b / 2 ^ g) by (apply Z.div_le_mono; lia).
  set (E := 2 ^ g) in *. set (h := 2 ^ (g - 1)) in *.
  set (qa := a / E) in *. set (ra := a mod E) in *.
  set (qb := b / E) in *. set (rb := b mod E) in *.
  destruct (decide (qa = qb)) as [Heq|Hne].
  - rewrite <- Heq in *. assert (ra <= rb) by nia.
    destruct (Z.ltb_spec ra h), (Z.ltb_spec h ra), (Z.ltb_spec rb h), (Z.ltb_spec h rb),
      (Z.even qa); nia.
  - assert (Hstep : (qa + 1) * E <= qb * E) by nia.
    destruct (Z.ltb_spec ra h), (Z.ltb_spec h ra), (Z.ltb_spec rb h), (Z.ltb_spec h rb),
      (Z.even qa), (Z.even qb); nia.
Qed.

Lemma nearest_even_le_multiple g a k :
  a <= k * 2 ^ g → Float64.nearest_even g a <= k * 2 ^ g.
Proof.
  intros Hak. unfold Float64.nearest_even. destruct (Z.leb_spec g 0); [done|].
  assert (HE : 0 < 2 ^ g) by (apply Z.pow_pos_nonneg; lia).
  assert (Hhalf : 2 ^ g = 2 * 2 ^ (g - 1)).
  { rewrite <- Z.pow_succ_r by lia. f_equal. lia. }
  pose proof (Z.div_mod a (2 ^ g) ltac:(lia)) as Ha.
  pose proof (Z.mod_pos_bound a (2 ^ g) HE) as Hra.
  set (E := 2 ^ g) in *. set (h := 2 ^ (g - 1)) in *.
  set (qa := a / E) in *. set (ra := a mod E) in *.
  assert (Hq : qa <= k) by nia.
  destruct (decide (qa = k)) as [Heq|Hne].
  - assert (ra = 0) by nia.
    destruct (Z.ltb_spec ra h); [nia|]. lia.
  - assert ((qa + 1) * E <= k * E) by nia.
    destruct (Z.ltb_spec ra h), (Z.ltb_spec h ra), (Z.even qa); nia.
Qed.

Lemma nearest_even_ge_multiple g b k :
  k * 2 ^ g <= b → k * 2 ^ g <= Float64.nearest_even g b.
Proof.
  intros Hkb. unfold Float64.nearest_even. destruct (Z.leb_spec g 0); [done|].
  assert (HE : 0 < 2 ^ g) by (apply Z.pow_pos_nonneg; lia).
  pose proof (Z.div_mod b (2 ^ g) ltac:(lia)) as Hb.
  pose proof (Z.mod_pos_bound b (2 ^ g) HE) as Hrb.
  set (E := 2 ^ g) in *. set (h := 2 ^ (g - 1)) in *.
  set (qb := b / E) in *. set (rb := b mod E) in *.
  assert (Hq : k <= qb) by nia.
  assert (k * E <= qb * E) by nia.
  destruct (Z.ltb_spec rb h), (Z.ltb_spec h rb), (Z.even qb); nia.
Qed.

Lemma round_at_mono fine a b :
  0 <= fine → 0 <= a <= b → Float64.round_at fine a <= Float64.round_at fine b.
Proof.
  intros Hfine [Ha Hab]. unfold Float64.round_at.
  destruct (decide (a = 0)) as [->|Hapos].
  { transitivity (0 * 2 ^ (Z.max fine (Z.log2 0 - 52))).
    - apply nearest_even_le_multiple. lia.
    - transitivity (0 * 2 ^ (Z.max fine (Z.log2 b - 52))); [lia|].
      apply nearest_even_ge_multiple. lia. }
  assert (Hlog : Z.log2 a <= Z.log2 b) by (apply Z.log2_le_mono; lia).
  destruct (decide (Z.max fine (Z.log2 a - 52) = Z.max fine (Z.log2 b - 52))) as [Heq|Hne].
  { rewrite Heq. by apply nearest_even_mono. }
  set (ga := Z.max fine (Z.log2 a - 52)) in *.
  set (gb := Z.max fine (Z.log2 b - 52)) in *.
  assert (Hgb : gb = Z.log2 b - 52 ∧ ga < gb ∧ Z.log2 a < Z.log2 b ∧ 0 <= ga) by lia.
  destruct Hgb as (Hgb & Hlt & Hloglt & Hga).
  pose proof (Z.log2_spec a ltac:(lia)) as [_ Haub].
  pose proof (Z.log2_spec b ltac:(lia)) as [Hblb _].
  assert (Hpow : 2 ^ Z.succ (Z.log2 a) <= 2 ^ Z.log2 b)
    by (apply Z.pow_le_mono_r; lia).
  transitivity (2 ^ Z.log2 b).
  - replace (2 ^ Z.log2 b) with (2 ^ (Z.log2 b - ga) * 2 ^ ga).
    + apply nearest_even_le_multiple.
      rewrite <- Z.pow_add_r by lia. replace (Z.log2 b - ga + ga) with (Z.log2 b) by lia. lia.
    + rewrite <- Z.pow_add_r by lia. f_equal. lia.
  - replace (2 ^ Z.log2 b) with (2 ^ 52 * 2 ^ gb).
    + apply nearest_even_ge_multiple.
      rewrite <- Z.pow_add_r by lia. replace (52 + gb) with (Z.log2 b) by lia. lia.
    + rewrite <- Z.pow_add_r by lia. f_equal. lia.
Qed.

Lemma one_pos : 0 < Float64.one.
Proof. unfold Float64.one. apply Z.pow_pos_nonneg; lia. Qed.

Lemma round_mono a b : 0 <= a <= b → Float64.round a <= Float64.round b.
Proof. apply round_at_mono. lia. Qed.

Lemma add_mono x y y' :
  0 <= x → 0 <= y <= y' → Float64.add x y <= Float64.add x y'.
Proof. intros Hx Hy. unfold Float64.add. apply round_mono. lia. Qed.

Lemma mul_mono x x' y :
  0 <= y → 0 <= x <= x' → Float64.mul x y <= Float64.mul x' y.
Proof.
  intros Hy Hx. unfold Float64.mul.
  apply Z.div_le_mono; [apply one_pos|].
  apply round_at_mono; [lia|]. nia.
Qed.

Lemma floor_mono x x' : x <= x' → Float64.floor x <= Float64.floor x'.
Proof. intros Hx. unfold Float64.floor. apply Z.div_le_mono; [apply one_pos | done]. Qed.

(** No binary64 value lies strictly between [1 - 2^-53] and 1. *)
Lemma random_le_below_one r : Float64.is_random r → 0 <= r <= Float64.below_one.
Proof.
  intros [Hrep Hlt]. unfold Float64.representable in Hrep.
  apply andb_true_iff in Hrep as [H0%Z.leb_le Hround%Z.eqb_eq].
  split; [done|].
  destruct (Z.le_gt_cases r Float64.below_one) as [|Hgt]; [done|exfalso].
  destruct (Z.lt_ge_cases r (Float64.below_one + 2 ^ 1020)) as [Hlow|Hhigh].
  - assert (Hle : Float64.round r <= Float64.round (Float64.below_one + 2 ^ 1020 - 1))
      by (apply round_mono; lia).
    replace (Float64.round (Float64.below_one + 2 ^ 1020 - 1)) with Float64.below_one in Hle
      by (vm_compute; reflexivity).
    lia.
  - assert (Hge : Float64.round (Float64.below_one + 2 ^ 1020) <= Float64.round r).
    { apply round_mono. split; [|lia]. vm_compute. discriminate. }
    replace (Float64.round (Float64.below_one + 2 ^ 1020)) with Float64.one in Hge
      by (vm_compute; reflexivity).
    lia.
Qed.

Lemma code_number_range r :
  Float64.is_random r → 1000 <= PairingCode.code_number r <= 9999.
Proof.
  intros Hr. apply random_le_below_one in Hr as [H0 Hmax].
  unfold PairingCode.code_number.
  assert (Hk : 0 <= Float64.of_int 9000) by (vm_compute; discriminate).
  assert (Hk1 : 0 <= Float64.of_int 1000) by (vm_compute; discriminate).
  assert (Hlo : Float64.mul 0 (Float64.of_int 9000) <= Float64.mul r (Float64.of_int 9000))
    by (apply mul_mono; lia).
  assert (Hhi : Float64.mul r (Float64.of_int 9000)
                <= Float64.mul Float64.below_one (Float64.of_int 9000))
    by (apply mul_mono; lia).
  assert (Hz : Float64.mul 0 (Float64.of_int 9000) = 0) by (vm_compute; reflexivity).
  rewrite Hz in Hlo.
  split.
  - transitivity (Float64.floor (Float64.add (Float64.of_int 1000) 0)).
    + vm_compute. discriminate.
    + apply floor_mono, add_mono; lia.
  - transitivity (Float64.floor (Float64.add (Float64.of_int 1000)
                    (Float64.mul Float64.below_one (Float64.of_int 9000)))).
    + apply floor_mono, add_mono; lia.
    + vm_compute. discriminate.
Qed.

Lemma pretty_N_char_digit k : JSNumber.is_digit (pretty_N_char k) = true.
Proof. unfold pretty_N_char. by repeat case_match. Qed.

Lemma pretty_four_digits n :
  1000 <= n <= 9999 → PairingCode.four_digits (pretty n) = true.
Proof.
  intros Hn. destruct n as [|p|p]; try lia.
  change (pretty (Z.pos p)) with (pretty (N.pos p)).
  unfold pretty, pretty_N. rewrite decide_False by done.
  assert (Hx : (1000 ≤ N.pos p ≤ 9999)%N) by lia.
  clear Hn. revert Hx. generalize (N.pos p). intros x Hx.
  assert (H1 : (100 ≤ x / 10 < 1000)%N)
    by (split; [apply N.div_le_lower_bound | apply N.Div0.div_lt_upper_bound]; lia).
  assert (H2 : (10 ≤ x / 10 / 10 < 100)%N)
    by (split; [apply N.div_le_lower_bound | apply N.Div0.div_lt_upper_bound]; lia).
  assert (H3 : (1 ≤ x / 10 / 10 / 10 < 10)%N)
    by (split; [apply N.div_le_lower_bound | apply N.Div0.div_lt_upper_bound]; lia).
  assert (H4 : (x / 10 / 10 / 10 / 10 = 0)%N) by (apply N.div_small; lia).
  rewrite 4!pretty_N_go_step by lia. rewrite H4, pretty_N_go_0.
  unfold PairingCode.four_digits.
  cbn [String.length list_ascii_of_string forallb Nat.eqb andb].
  by rewrite !pretty_N_char_digit.
Qed.

Lemma fullId_inj a b : Direct.fullId a = Direct.fullId b → a = b.
Proof. unfold Direct.fullId. intros H. cbv in H. congruence. Qed.

(** ** The pairing code *)

(** The display and the console build the identifier from a code in the
    same way. *)
Lemma fullId_agree code : Display.fullId code = Direct.fullId code.
Proof. reflexivity. Qed.

Lemma console_fullId_spec (st : Direct.Staff) typed :
  Direct.peerRef (link st) = true →
  PairingCode.console_fullId st typed
  = if JS.truthy_string typed then Some (Direct.fullId typed) else None.
Proof.
  intros Hpeer. unfold PairingCode.console_fullId, Direct.connectToPatient.
  cbn [link setLink Direct.patientCode Direct.peerRef]. rewrite Hpeer.
  by destruct (JS.truthy_string typed).
Qed.

Lemma console_dials_display (st : Direct.Staff) (code : string) :
  Direct.peerRef (link st) = true →
  JS.truthy_string code = true →
  PairingCode.console_fullId st code = Some (Direct.fullId code)
  ∧ ∀ typed, PairingCode.console_fullId st typed = Some (Direct.fullId code) → typed = code.
Proof.
  intros Hpeer Hcode. split.
  - by rewrite console_fullId_spec, Hcode.
  - intros typed. rewrite console_fullId_spec by done.
    destruct (JS.truthy_string typed); [|intros Hnone; discriminate Hnone].
    intros Hid. apply fullId_inj. congruence.
Qed.

Lemma four_digits_spec text :
  PairingCode.four_digits text = true →
  String.length text = 4%nat
  ∧ forallb JSNumber.is_digit (list_ascii_of_string text) = true
  ∧ JS.truthy_string text = true.
Proof.
  unfold PairingCode.four_digits. intros [Hlen%Nat.eqb_eq Hdigits]%andb_true_iff.
  split; [done|]. split; [done|]. by destruct text.
Qed.

(** Claim C8.  For every number [Math.random()] can return, the display's
    code [Math.floor(1000 + Math.random() * 9000)] is an integer from 1000 to
    9999, its text is four decimal digits, and the display listens on
    ["radio-patient-" + code]; a console whose peer exists and whose operator
    types that code dials exactly the display's identifier, and only that
    code leads to it. *)
Theorem C8_pairing_code_agreement (r : Z) :
  Float64.is_random r →
  1000 <= PairingCode.code_number r <= 9999
  ∧ String.length (PairingCode.code r) = 4%nat
  ∧ forallb JSNumber.is_digit (list_ascii_of_string (PairingCode.code r)) = true
  ∧ PairingCode.display_fullId r = "radio-patient-" +:+ PairingCode.code r
  ∧ ∀ st : Direct.Staff,
      Direct.peerRef (link st) = true →
      PairingCode.console_fullId st (PairingCode.code r)
      = Some (PairingCode.display_fullId r)
      ∧ ∀ typed, PairingCode.console_fullId st typed = Some (PairingCode.display_fullId r) →
                 typed = PairingCode.code r.
Proof.
  intros Hr. pose proof (code_number_range r Hr) as Hrange.
  assert (Hfour : PairingCode.four_digits (PairingCode.code r) = true)
    by exact (pretty_four_digits _ Hrange).
  destruct (four_digits_spec _ Hfour) as (Hlen & Hdigits & Htruthy).
  split; [exact Hrange|]. split; [exact Hlen|]. split; [exact Hdigits|].
  split; [reflexivity|].
  intros st Hpeer.
  change (PairingCode.display_fullId r) with (Display.fullId (PairingCode.code r)).
  rewrite fullId_agree. by apply console_dials_display.
Qed.

(** The draw 0.5 gives the code 5500. *)
Example code_of_half :
  PairingCode.code (2 ^ 1073) = "5500"
  ∧ PairingCode.display_fullId (2 ^ 1073) = "radio-patient-5500".
Proof. split; vm_compute; reflexivity. Qed.

Lemma C8_witness :
  Float64.is_random (2 ^ 1073)
  ∧ 1000 <= PairingCode.code_number (2 ^ 1073) <= 9999
  ∧ String.length (PairingCode.code (2 ^ 1073)) = 4%nat.
Proof.
  assert (Hr : Float64.is_random (2 ^ 1073)).
  { split; vm_compute; reflexivity. }
  destruct (C8_pairing_code_agreement (2 ^ 1073) Hr) as (Hrange & Hlen & _).
  split; [exact Hr|]. split; [exact Hrange | exact Hlen].
Defined.

(** ** Media through [show] *)

Lemma image_type_not_video t :
  JS.startsWith "image/" t = true →
  JS.truthy_string t = true ∧ JS.startsWith "video/" t = false.
Proof.
  unfold JS.startsWith. destruct t as [|c t]; [discriminate|].
  cbn [String.prefix]. destruct (ascii_dec "i" c) as [<-|]; [|discriminate].
  intros _. split; [reflexivity|].
  destruct (ascii_dec "v" "i"); [discriminate | reflexivity].
Qed.

Lemma normalize_lower_case t :
  Display.lower_case_type t = true → Display.normalize_type t = t.
Proof.
  unfold Display.lower_case_type, Display.normalize_type. intros Hlower.
  assert (Hprintable : forallb Display.printable (list_ascii_of_string t) = true).
  { apply forallb_forall. intros c Hc.
    apply (proj1 (forallb_forall _ _) Hlower) in Hc.
    by apply andb_true_iff in Hc as [? _]. }
  rewrite Hprintable.
  assert (Hmap : List.map Display.to_lower (list_ascii_of_string t) = list_ascii_of_string t).
  { induction (list_ascii_of_string t) as [|c l IH]; [done|].
    cbn [forallb] in Hlower. apply andb_true_iff in Hlower as [Hc Hl].
    apply andb_true_iff in Hc as [_ Hc%bool_decide_eq_true].
    cbn [List.map]. rewrite Hc, IH; [done | done |].
    apply forallb_forall. intros c' Hc'.
    apply (proj1 (forallb_forall _ _) Hl) in Hc'.
    by apply andb_true_iff in Hc' as [? _]. }
  by rewrite Hmap, string_of_list_ascii_of_string.
Qed.

(** Claim C6.  On a linked console, a step whose media is a blob of bytes
    [B] and whose media type is an image type, sent by [sendInstruction],
    leaves the display with exactly the bytes [B] in the received payload
    and in the blob it builds from it; the blob is rendered as an image and
    carries the step's media type (as the [Blob] constructor normalizes it,
    which leaves the type of an uploaded file as it is). *)
Theorem C6_media_round_trip
    (lk : Direct.Link) (inst : Direct.Instruction) (d : Display.State)
    (B : list Byte.byte) (file_type t : string) :
  Direct.linked lk →
  Direct.media inst = Some (Direct.mkBlob B file_type) →
  Direct.media_type inst = Some t →
  JS.startsWith "image/" t = true →
  let d' := Display.receive_all d (Direct.sendInstruction lk inst) in
  (Direct.payload_media <$> Display.instruction d') = Some (Some B)
  ∧ (Direct.payload_media_type <$> Display.instruction d') = Some (Some t)
  ∧ (Direct.blob_bytes <$> Display.mediaUrl d') = Some B
  ∧ Display.rendered_media d'
    = Some (Direct.mkBlob B (Display.normalize_type t), Display.Image)
  ∧ (Display.lower_case_type t = true →
     Display.rendered_media d' = Some (Direct.mkBlob B t, Display.Image)).
Proof.
  intros [Hconn Hflag] Hmedia Htype Himage.
  destruct (image_type_not_video t Himage) as [Htruthy Hvideo].
  unfold Direct.sendInstruction. rewrite Hflag, bool_decide_eq_true_2 by done.
  cbn [andb Display.receive_all foldl Display.receive Display.on_data Display.media_effect
       Display.instruction Display.rendered_media Display.mediaUrl fmap option_fmap
       option_map Direct.payload_of Direct.payload_media Direct.payload_media_type].
  rewrite Hmedia, Htype. cbn [Direct.arrayBuffer Direct.blob_bytes JS.or_string].
  rewrite Htruthy. unfold Display.media_kind. rewrite Hvideo.
  unfold Display.new_Blob. repeat split.
  intros Hlower. by rewrite normalize_lower_case.
Qed.

Lemma C6_witness :
  Direct.linked Sample.linked
  ∧ Direct.media Sample.step2
    = Some (Direct.mkBlob [Byte.x89; Byte.x50; Byte.x4e; Byte.x47] "image/png")
  ∧ Direct.media_type Sample.step2 = Some "image/png"
  ∧ JS.startsWith "image/" "image/png" = true
  ∧ Display.lower_case_type "image/png" = true
  ∧ Display.rendered_media
      (Display.receive_all (Display.mount "4821")
         (Direct.sendInstruction Sample.linked Sample.step2))
    = Some (Direct.mkBlob [Byte.x89; Byte.x50; Byte.x4e; Byte.x47] "image/png",
            Display.Image).
Proof.
  assert (Hlinked : Direct.linked Sample.linked) by (split; [by eexists | reflexivity]).
  split; [exact Hlinked|]. split; [reflexivity|]. split; [reflexivity|].
  split; [reflexivity|]. split; [reflexivity|].
  exact (proj2 (proj2 (proj2 (proj2
           (C6_media_round_trip Sample.linked Sample.step2 (Display.mount "4821")
              [Byte.x89; Byte.x50; Byte.x4e; Byte.x47] "image/png" "image/png"
              Hlinked eq_refl eq_refl eq_refl)))) eq_refl).
Defined.

(** ** The label of the display *)

Lemma span_all p s : forallb p s = true → JSNumber.span p s = (s, []).
Proof.
  induction s as [|c s IH]; [done|]. simpl. intros [Hc Hs]%andb_true_iff.
  by rewrite Hc, IH.
Qed.

Lemma digit_not_sign c : JSNumber.is_digit c = true → JSNumber.is_sign c = false.
Proof.
  unfold JSNumber.is_digit, JSNumber.is_sign.
  intros [H1%Nat.leb_le H2%Nat.leb_le]%andb_true_iff.
  apply orb_false_iff. split; apply Nat.eqb_neq; lia.
Qed.

Lemma drop_white_space_digit ws c s :
  forallb (λ w, match w with
                | n :: _ => negb ((48 <=? n)%nat && (n <=? 57)%nat)
                | [] => false
                end) ws = true →
  JSNumber.is_digit c = true →
  JSNumber.drop_white_space ws (c :: s) = None.
Proof.
  intros Hws Hc. induction ws as [|w ws IH]; [done|].
  cbn [forallb] in Hws. apply andb_true_iff in Hws as [Hw Hws].
  cbn [JSNumber.drop_white_space]. destruct w as [|n w]; [done|].
  cbn [JSNumber.drop_prefix]. unfold JSNumber.is_digit in Hc. cbv zeta in Hc.
  destruct (Nat.eqb_spec (nat_of_ascii c) n) as [<-|_].
  - by rewrite Hc in Hw.
  - by apply IH.
Qed.

Lemma strip_digit ws fuel c s :
  forallb (λ w, match w with
                | n :: _ => negb ((48 <=? n)%nat && (n <=? 57)%nat)
                | [] => false
                end) ws = true →
  JSNumber.is_digit c = true →
  JSNumber.strip ws fuel (c :: s) = c :: s.
Proof.
  intros Hws Hc. destruct fuel; [done|].
  cbn [JSNumber.strip]. by rewrite drop_white_space_digit.
Qed.

Lemma trim_digits s :
  JSNumber.all_digits JSNumber.is_digit s = true → JSNumber.trim s = s.
Proof.
  unfold JSNumber.all_digits. intros [Hne Hall]%andb_true_iff.
  unfold JSNumber.trim.
  assert (Hstart : JSNumber.trim_start s = s).
  { unfold JSNumber.trim_start. destruct s as [|c s]; [done|].
    simpl in Hall. apply andb_true_iff in Hall as [Hc _].
    by apply strip_digit. }
  rewrite Hstart. unfold JSNumber.trim_end.
  assert (Hrev : forallb JSNumber.is_digit (List.rev s) = true).
  { apply forallb_forall. intros c Hin%in_rev.
    by apply (proj1 (forallb_forall _ _) Hall). }
  destruct (List.rev s) as [|c r] eqn:Hr.
  - apply (f_equal (@List.rev ascii)) in Hr. rewrite rev_involutive in Hr.
    subst s. discriminate Hne.
  - simpl in Hrev. apply andb_true_iff in Hrev as [Hc _].
    rewrite strip_digit by done. by rewrite <- Hr, rev_involutive.
Qed.

Lemma only_digits_numeric text :
  JSNumber.only_digits text = true → JSNumber.is_numeric text = true.
Proof.
  unfold JSNumber.only_digits, JSNumber.is_numeric. intros Hdigits.
  rewrite trim_digits by done.
  unfold JSNumber.all_digits in Hdigits. apply andb_true_iff in Hdigits as [Hne Hall].
  destruct (list_ascii_of_string text) as [|c s] eqn:Htext; [done|].
  apply orb_true_iff. left.
  assert (Hc : JSNumber.is_digit c = true) by (simpl in Hall; by apply andb_true_iff in Hall as [? _]).
  unfold JSNumber.decimal. rewrite (digit_not_sign c Hc).
  unfold JSNumber.unsigned_decimal. case_bool_decide; [done|].
  by rewrite span_all.
Qed.

(** Claim C9, as stated, fails: a step with media whose text is ["1.5"] is
    shown without its label, although the text is not a sequence of decimal
    digits; [Number("1.5")] is a number. *)
Lemma C9_counterexample_decimal_point :
  ¬ (is_Some (Display.mediaUrl
                (Display.receive_all (Display.mount "4821")
                   (Direct.sendInstruction Sample.linked Sample.step3))) →
     (Display.label_shown
        (Display.receive_all (Display.mount "4821")
           (Direct.sendInstruction Sample.linked Sample.step3)) = false
      ↔ JSNumber.only_digits (Direct.name Sample.step3) = true)).
Proof.
  intros Hclaim. destruct Hclaim as [Hdigits _]; [by eexists|].
  specialize (Hdigits eq_refl). vm_compute in Hdigits. discriminate.
Qed.

(** Claim C9, amended.  The display leaves the label out exactly when the
    step carries media and [Number(text)] is a number (not [NaN]): that is
    the case for every text made only of decimal digits, and also for other
    numeric literals (a sign, a decimal point, an exponent, a hexadecimal,
    octal or binary literal, [Infinity], surrounding white space) and for
    the empty text.  When the step carries no media, or the text is not
    numeric, the label is rendered. *)
Theorem C9_label_suppressed_iff_media_and_numeric :
  (∀ d p,
     Display.label_shown (Display.receive d (Direct.MsgInstruction p)) = false
     ↔ is_Some (Direct.payload_media p)
       ∧ JSNumber.is_numeric (Direct.payload_name p) = true)
  ∧ (∀ i : Relay.Instruction,
     Relay.label_shown i = false
     ↔ JS.truthy_nullable (Relay.media_url i) = true
       ∧ JSNumber.is_numeric (Relay.name i) = true)
  ∧ (∀ text, JSNumber.only_digits text = true → JSNumber.is_numeric text = true)
  ∧ (∀ d p,
     is_Some (Direct.payload_media p) →
     JSNumber.only_digits (Direct.payload_name p) = true →
     Display.label_shown (Display.receive d (Direct.MsgInstruction p)) = false).
Proof.
  assert (Hdirect : ∀ d p,
     Display.label_shown (Display.receive d (Direct.MsgInstruction p)) = false
     ↔ is_Some (Direct.payload_media p)
       ∧ JSNumber.is_numeric (Direct.payload_name p) = true).
  { intros d p. unfold Display.label_shown, Display.receive, JSNumber.isNaN_Number.
    cbn [Display.on_data Display.media_effect Display.instruction Display.mediaUrl].
    destruct (Direct.payload_media p) as [buffer|].
    - rewrite bool_decide_eq_true_2 by eauto. cbn [negb orb].
      rewrite negb_false_iff. split; [by eauto | by intros [_ ?]].
    - rewrite bool_decide_eq_false_2 by (intros [? ?]; done). cbn [negb orb].
      split; [done | by intros [[? ?] _]]. }
  split; [exact Hdirect|]. split; [|split; [exact only_digits_numeric|]].
  - intros i. unfold Relay.label_shown, JSNumber.isNaN_Number.
    destruct (JS.truthy_nullable (Relay.media_url i)); cbn [negb orb].
    + rewrite negb_false_iff. split; [done | by intros [_ ?]].
    + split; [done | by intros [? _]].
  - intros d p Hmedia Hdigits. apply Hdirect. split; [done|].
    by apply only_digits_numeric.
Qed.

Lemma C9_witness :
  is_Some (Direct.payload_media (Direct.payload_of Sample.step2))
  ∧ JSNumber.only_digits (Direct.payload_name (Direct.payload_of Sample.step2)) = true
  ∧ Display.label_shown
      (Display.receive (Display.mount "4821")
         (Direct.MsgInstruction (Direct.payload_of Sample.step2))) = false.
Proof.
  assert (Hmedia : is_Some (Direct.payload_media (Direct.payload_of Sample.step2)))
    by (by eexists).
  split; [exact Hmedia|]. split; [reflexivity|].
  exact (proj2 (proj2 (proj2 C9_label_suppressed_iff_media_and_numeric))
           (Display.mount "4821") (Direct.payload_of Sample.step2) Hmedia eq_refl).
Defined.

(** ** More on the session, whatever the transport *)

Section SessionMore.
Context {Instr Link Msg : Type}.
Variable sendInstruction : Link → Instr → list Msg.
Variable clearInstruction : Link → list Msg.

Abbreviation StaffS := (Staff Instr Link).

Lemma act_frame (st : StaffS) a :
  link (act sendInstruction clearInstruction st a).1 = link st
  ∧ instructionsByScenario (act sendInstruction clearInstruction st a).1
    = instructionsByScenario st.
Proof.
  destruct a; cbn [act]; unfold advance;
    try (destruct (goToStep_cases sendInstruction st index) as [-> | (-> & _)]; done);
    try (destruct (goToStep_cases sendInstruction st (currentStepIndex st + 1))
           as [-> | (-> & _)]; done);
    try (destruct (goToStep_cases sendInstruction st (currentStepIndex st + -1))
           as [-> | (-> & _)]; done).
  - by rewrite startSession_state.
  - done.
Qed.

Lemma run_frame (st : StaffS) actions :
  link (run sendInstruction clearInstruction st actions).1 = link st
  ∧ instructionsByScenario (run sendInstruction clearInstruction st actions).1
    = instructionsByScenario st.
Proof.
  revert st. induction actions as [|a rest IH]; intros st; [done|].
  rewrite run_cons. destruct (IH (act sendInstruction clearInstruction st a).1) as [-> ->].
  apply act_frame.
Qed.

Lemma run_out_cons (st : StaffS) a rest :
  (run sendInstruction clearInstruction st (a :: rest)).2
  = ((act sendInstruction clearInstruction st a).2
     ++ (run sendInstruction clearInstruction
           (act sendInstruction clearInstruction st a).1 rest).2)%list.
Proof.
  cbn [run]. destruct (act sendInstruction clearInstruction st a) as [st1 out1]. simpl.
  by destruct (run sendInstruction clearInstruction st1 rest).
Qed.

(** What an action sends is nothing, the clear call, or the delivery call
    on a step of a loaded list. *)
Lemma act_out (st : StaffS) a :
  (act sendInstruction clearInstruction st a).2 = []
  ∨ (act sendInstruction clearInstruction st a).2 = clearInstruction (link st)
  ∨ ∃ scenarioId inst,
      inst ∈ JS.get_or_empty (instructionsByScenario st) scenarioId
      ∧ (act sendInstruction clearInstruction st a).2 = sendInstruction (link st) inst.
Proof.
  assert (Hgo : ∀ index,
    (goToStep sendInstruction st index).2 = []
    ∨ ∃ scenarioId inst,
        inst ∈ JS.get_or_empty (instructionsByScenario st) scenarioId
        ∧ (goToStep sendInstruction st index).2 = sendInstruction (link st) inst).
  { intros index. destruct (is_active st) eqn:Hact; [|left; by rewrite goToStep_idle].
    destruct (decide (0 <= index < JS.length (active_steps st))) as [Hin|Hout];
      [|left; by rewrite goToStep_out_of_range].
    destruct (index_in_range _ _ Hin) as [inst Hinst].
    right. rewrite (goToStep_in_range _ _ _ inst) by done.
    unfold active_steps in Hinst. destruct (activeScenarioId st) as [sid|];
      [|apply index_Some_lt in Hinst; unfold JS.length in Hinst; simpl in Hinst; lia].
    exists sid, inst. split; [|done].
    unfold JS.index in Hinst. destruct (index <? 0); [done|].
    by eapply list_elem_of_lookup_2. }
  destruct a; cbn [act]; unfold advance.
  - destruct (JS.get_or_empty (instructionsByScenario st) scenarioId) as [|first rest] eqn:Hs.
    + left. by apply startSession_out_nil.
    + right. right. exists scenarioId, first. split; [rewrite Hs; left|].
      by apply startSession_out_cons with rest.
  - destruct (Hgo index) as [?|?]; auto.
  - destruct (Hgo (currentStepIndex st + 1)) as [?|?]; auto.
  - destruct (Hgo (currentStepIndex st + -1)) as [?|?]; auto.
  - right. by left.
Qed.

(** The session part of the next state depends only on the session part of
    the state, not on the transport. *)
Lemma goToStep_state (st : StaffS) index :
  (goToStep sendInstruction st index).1
  = if is_active st && ((index >=? 0) && (index <? JS.length (active_steps st)))
    then setCurrentStepIndex index st else st.
Proof.
  destruct (is_active st) eqn:Hact; [|by rewrite goToStep_idle].
  destruct (Z.geb_spec index 0), (Z.ltb_spec index (JS.length (active_steps st)));
    cbn [andb]; try (rewrite goToStep_out_of_range; [done | lia]).
  destruct (index_in_range (active_steps st) index) as [inst Hinst]; [lia|].
  by rewrite (goToStep_in_range _ _ _ inst).
Qed.

(** Nothing is sent by any run while the transport drops everything. *)
Lemma run_silent (st : StaffS) actions :
  (∀ inst, sendInstruction (link st) inst = []) →
  clearInstruction (link st) = [] →
  (run sendInstruction clearInstruction st actions).2 = [].
Proof.
  revert st. induction actions as [|a rest IH]; intros st Hsend Hclear; [done|].
  rewrite run_out_cons. destruct (act_frame st a) as [Hlink _].
  rewrite IH by (rewrite Hlink; done). rewrite app_nil_r.
  destruct (act_out st a) as [-> | [-> | (sid & inst & _ & ->)]]; auto.
Qed.

(** Every message of a run is produced by the clear call or by the delivery
    call on a loaded step, and an action produces at most one call. *)
Lemma run_out_calls (st : StaffS) actions :
  ∃ calls : list (list Msg),
    (run sendInstruction clearInstruction st actions).2 = List.concat calls
    ∧ (List.length calls <= List.length actions)%nat
    ∧ ∀ call, call ∈ calls →
        call = clearInstruction (link st)
        ∨ ∃ scenarioId inst,
            inst ∈ JS.get_or_empty (instructionsByScenario st) scenarioId
            ∧ call = sendInstruction (link st) inst.
Proof.
  revert st. induction actions as [|a rest IH]; intros st.
  - exists []. split; [done|]. split; [done|]. intros call Hc. by apply elem_of_nil in Hc.
  - rewrite run_out_cons. destruct (act_frame st a) as [Hlink Hmap].
    destruct (IH (act sendInstruction clearInstruction st a).1) as (calls & -> & Hlen & Hcalls).
    rewrite Hlink, Hmap in Hcalls.
    destruct (act_out st a) as [-> | Hone].
    + exists calls. split; [done|]. split; [simpl; lia | done].
    + exists ((act sendInstruction clearInstruction st a).2 :: calls).
      split; [done|]. split; [simpl; lia|].
      intros call [->|Hc]%elem_of_cons; [|by apply Hcalls].
      destruct Hone as [-> | (sid & inst & Hin & ->)]; [by left|].
      right. by exists sid, inst.
Qed.

End SessionMore.

(** ** The receiving side mirrors the console's current step *)

Section Mirror.
Context {Instr Link Msg T X : Type}.
Variable sendInstruction : Link → Instr → list Msg.
Variable clearInstruction : Link → list Msg.
Variable receive : T → Msg → T.
Variable shown : T → option X.
Variable encode : Instr → X.
Variable lk : Link.
Hypothesis delivered :
  ∀ t inst, shown (foldl receive t (sendInstruction lk inst)) = Some (encode inst).

Lemma mirror_act (st : Staff Instr Link) (t : T) a :
  link st = lk →
  (is_active st = true →
   ∀ inst, JS.index (active_steps st) (currentStepIndex st) = Some inst →
           shown t = Some (encode inst)) →
  is_active (act sendInstruction clearInstruction st a).1 = true →
  ∀ inst,
    JS.index (active_steps (act sendInstruction clearInstruction st a).1)
      (currentStepIndex (act sendInstruction clearInstruction st a).1) = Some inst →
    shown (foldl receive t (act sendInstruction clearInstruction st a).2) = Some (encode inst).
Proof.
  intros Hlk Hinv.
  assert (Hgo : ∀ index,
    is_active (goToStep sendInstruction st index).1 = true →
    ∀ inst,
      JS.index (active_steps (goToStep sendInstruction st index).1)
        (currentStepIndex (goToStep sendInstruction st index).1) = Some inst →
      shown (foldl receive t (goToStep sendInstruction st index).2) = Some (encode inst)).
  { intros index. destruct (is_active st) eqn:Hact; [|rewrite goToStep_idle by done; cbn [fst]; congruence].
    destruct (decide (0 <= index < JS.length (active_steps st))) as [Hin|Hout];
      [|rewrite goToStep_out_of_range by done; cbn [fst snd foldl];
        intros _; by apply Hinv].
    destruct (index_in_range _ _ Hin) as [inst' Hinst'].
    rewrite (goToStep_in_range _ _ _ inst') by done. cbn [fst snd].
    intros _ inst Hinst.
    change (active_steps (setCurrentStepIndex index st)) with (active_steps st) in Hinst.
    cbn [setCurrentStepIndex currentStepIndex] in Hinst.
    rewrite Hinst' in Hinst. injection Hinst as <-. rewrite Hlk. apply delivered. }
  destruct a; cbn [act]; unfold advance; try apply Hgo.
  - rewrite startSession_state. intros _ inst.
    unfold active_steps. cbn [activeScenarioId currentStepIndex instructionsByScenario].
    destruct (JS.get_or_empty (instructionsByScenario st) scenarioId) as [|first rest] eqn:Hs.
    + discriminate.
    + rewrite (startSession_out_cons _ _ _ first rest) by done.
      intros [= <-]. rewrite Hlk. apply delivered.
  - discriminate.
Qed.

Lemma mirror_run (st : Staff Instr Link) (t : T) actions :
  link st = lk →
  (is_active st = true →
   ∀ inst, JS.index (active_steps st) (currentStepIndex st) = Some inst →
           shown t = Some (encode inst)) →
  is_active (run sendInstruction clearInstruction st actions).1 = true →
  ∀ inst,
    JS.index (active_steps (run sendInstruction clearInstruction st actions).1)
      (currentStepIndex (run sendInstruction clearInstruction st actions).1) = Some inst →
    shown (foldl receive t (run sendInstruction clearInstruction st actions).2)
    = Some (encode inst).
Proof.
  revert st t. induction actions as [|a rest IH]; intros st t Hlk Hinv; [exact Hinv|].
  rewrite run_cons, run_out_cons, foldl_app.
  apply IH.
  - by destruct (act_frame sendInstruction clearInstruction st a) as [-> _].
  - by apply mirror_act.
Qed.

End Mirror.

(** X1.  The session state after any sequence of operator actions does not
    depend on the transport or on its state: two consoles with the same
    loaded step lists go through the same view, active scenario and cursor,
    and the actions change neither the link nor the step lists. *)
Theorem X1_session_ignores_transport
    {Instr Link Link' Msg Msg' : Type}
    (send : Link → Instr → list Msg) (clear : Link → list Msg)
    (send' : Link' → Instr → list Msg') (clear' : Link' → list Msg')
    (m : gmap string (list Instr)) (lk : Link) (lk' : Link') (actions : list Action) :
  viewMode (run send clear (initial m lk) actions).1
  = viewMode (run send' clear' (initial m lk') actions).1
  ∧ activeScenarioId (run send clear (initial m lk) actions).1
    = activeScenarioId (run send' clear' (initial m lk') actions).1
  ∧ currentStepIndex (run send clear (initial m lk) actions).1
    = currentStepIndex (run send' clear' (initial m lk') actions).1
  ∧ link (run send clear (initial m lk) actions).1 = lk
  ∧ instructionsByScenario (run send clear (initial m lk) actions).1 = m.
Proof.
  assert (Hrel : ∀ actions (st : Staff Instr Link) (st' : Staff Instr Link'),
    instructionsByScenario st = instructionsByScenario st' →
    viewMode st = viewMode st' →
    activeScenarioId st = activeScenarioId st' →
    currentStepIndex st = currentStepIndex st' →
    viewMode (run send clear st actions).1 = viewMode (run send' clear' st' actions).1
    ∧ activeScenarioId (run send clear st actions).1
      = activeScenarioId (run send' clear' st' actions).1
    ∧ currentStepIndex (run send clear st actions).1
      = currentStepIndex (run send' clear' st' actions).1).
  { clear. induction actions as [|a rest IH]; intros st st' Hm Hv Ha Hc; [done|].
    rewrite !run_cons.
    assert (Hactive : is_active st = is_active st') by (unfold is_active; by rewrite Ha).
    assert (Hsteps : active_steps st = active_steps st')
      by (unfold active_steps; by rewrite Ha, Hm).
    assert (Hgo : ∀ index,
      instructionsByScenario (goToStep send st index).1
      = instructionsByScenario (goToStep send' st' index).1
      ∧ viewMode (goToStep send st index).1 = viewMode (goToStep send' st' index).1
      ∧ activeScenarioId (goToStep send st index).1
        = activeScenarioId (goToStep send' st' index).1
      ∧ currentStepIndex (goToStep send st index).1
        = currentStepIndex (goToStep send' st' index).1).
    { intros index. rewrite !goToStep_state, Hactive, Hsteps.
      by destruct (is_active st' && _). }
    destruct a; cbn [act]; unfold advance.
    - apply IH; by rewrite !startSession_state.
    - destruct (Hgo index) as (? & ? & ? & ?). by apply IH.
    - rewrite <- Hc. destruct (Hgo (currentStepIndex st + 1)) as (? & ? & ? & ?). by apply IH.
    - rewrite <- Hc. destruct (Hgo (currentStepIndex st + -1)) as (? & ? & ? & ?). by apply IH.
    - by apply IH. }
  destruct (Hrel actions (initial m lk) (initial m lk')) as (? & ? & ?); try done.
  destruct (run_frame send clear (initial m lk) actions) as [? ?]. done.
Qed.

(** X2.  A console whose transport is down puts nothing on the wire,
    whatever the operator does: the direct-code console while it is not
    linked, the relay console while it has no socket. *)
Theorem X2_silent_without_transport :
  (∀ (st : Direct.Staff) actions,
     ¬ Direct.linked (link st) → (Direct.run st actions).2 = [])
  ∧ (∀ (st : Relay.Staff) actions,
     Relay.socket (link st) = None → (Relay.run st actions).2 = []).
Proof.
  split.
  - intros st actions Hdown. apply run_silent.
    + intros inst. unfold Direct.sendInstruction.
      destruct (bool_decide (is_Some (Direct.connRef (link st)))) eqn:Hc;
        destruct (Direct.patientConnected (link st)) eqn:Hp; try done.
      exfalso. apply Hdown. split; [by apply bool_decide_eq_true in Hc | done].
    + unfold Direct.clearInstruction.
      destruct (bool_decide (is_Some (Direct.connRef (link st)))) eqn:Hc;
        destruct (Direct.patientConnected (link st)) eqn:Hp; try done.
      exfalso. apply Hdown. split; [by apply bool_decide_eq_true in Hc | done].
  - intros st actions Hdown. apply run_silent.
    + intros inst. unfold Relay.sendInstruction. by rewrite Hdown.
    + unfold Relay.clearInstruction. by rewrite Hdown.
Qed.

Lemma X2_witness :
  ¬ Direct.linked (link (initial Sample.scenarios Sample.unlinked))
  ∧ (Direct.run (initial Sample.scenarios Sample.unlinked)
       [Start "thorax"; Next; End]).2 = [].
Proof.
  assert (Hdown : ¬ Direct.linked (link (initial Sample.scenarios Sample.unlinked)))
    by (intros [_ Hflag]; discriminate Hflag).
  split; [exact Hdown|].
  exact (proj1 X2_silent_without_transport _ [Start "thorax"; Next; End] Hdown).
Defined.

(** X3.  A linked console sends at most one message per operator action,
    and each message is [clear] or the payload of a step of one of the
    loaded lists. *)
Theorem X3_sends_only_loaded_steps (st : Direct.Staff) (actions : list Action) :
  Direct.linked (link st) →
  (List.length (Direct.run st actions).2 <= List.length actions)%nat
  ∧ ∀ msg, msg ∈ (Direct.run st actions).2 →
      msg = Direct.MsgClear
      ∨ ∃ scenarioId inst,
          inst ∈ JS.get_or_empty (instructionsByScenario st) scenarioId
          ∧ msg = Direct.MsgInstruction (Direct.payload_of inst).
Proof.
  intros [Hconn Hflag].
  assert (Hsend : ∀ inst, Direct.sendInstruction (link st) inst
                          = [Direct.MsgInstruction (Direct.payload_of inst)]).
  { intros inst. unfold Direct.sendInstruction.
    by rewrite Hflag, bool_decide_eq_true_2. }
  assert (Hclear : Direct.clearInstruction (link st) = [Direct.MsgClear]).
  { unfold Direct.clearInstruction. by rewrite Hflag, bool_decide_eq_true_2. }
  destruct (run_out_calls Direct.sendInstruction Direct.clearInstruction st actions)
    as (calls & Hout & Hlen & Hcalls).
  unfold Direct.run. rewrite Hout.
  assert (Hone : ∀ call, call ∈ calls → ∃ msg, call = [msg] ∧
            (msg = Direct.MsgClear
             ∨ ∃ scenarioId inst,
                 inst ∈ JS.get_or_empty (instructionsByScenario st) scenarioId
                 ∧ msg = Direct.MsgInstruction (Direct.payload_of inst))).
  { intros call Hc. destruct (Hcalls call Hc) as [-> | (sid & inst & Hin & ->)].
    - exists Direct.MsgClear. rewrite Hclear. auto.
    - exists (Direct.MsgInstruction (Direct.payload_of inst)). rewrite Hsend.
      split; [done|]. right. by exists sid, inst. }
  clear Hcalls Hout. revert Hlen Hone. generalize (List.length actions).
  induction calls as [|call calls IH]; intros n Hlen Hone.
  - split; [simpl; lia|]. intros msg Hm. by apply elem_of_nil in Hm.
  - destruct (Hone call) as (msg0 & -> & Hmsg0); [left|].
    destruct (IH (pred n)) as [IHlen IHmsg].
    + simpl in Hlen. lia.
    + intros c Hc. apply Hone. by right.
    + simpl in *. split; [lia|].
      intros msg [->|Hm]%elem_of_cons; [done | by apply IHmsg].
Qed.

Lemma X3_witness :
  Direct.linked (link Sample.console)
  ∧ (List.length (Direct.run Sample.console [Start "thorax"; Next; GoTo 9; End]).2 <= 4)%nat.
Proof.
  assert (Hlinked : Direct.linked (link Sample.console))
    by (split; [by eexists | reflexivity]).
  split; [exact Hlinked|].
  exact (proj1 (X3_sends_only_loaded_steps Sample.console
                  [Start "thorax"; Next; GoTo 9; End] Hlinked)).
Defined.





(** X6.  Jumping again to the same index re-sends the same step and leaves
    the state as the first jump left it; when the first jump was ignored
    the second is ignored too. *)
Theorem X6_goToStep_again_resends
    {Instr Link Msg : Type} (send : Link → Instr → list Msg)
    (st : Staff Instr Link) (index : Z) :
  goToStep send (goToStep send st index).1 index
  = ((goToStep send st index).1, (goToStep send st index).2).
Proof.
  destruct (is_active st) eqn:Hact;
    [|rewrite (goToStep_idle send st) by done; cbn [fst snd]; by rewrite goToStep_idle].
  destruct (decide (0 <= index < JS.length (active_steps st))) as [Hin|Hout];
    [|rewrite (goToStep_out_of_range send st) by done; cbn [fst snd];
      by rewrite goToStep_out_of_range].
  destruct (index_in_range _ _ Hin) as [inst Hinst].
  rewrite (goToStep_in_range send st index inst) by done. cbn [fst snd].
  rewrite (goToStep_in_range send (setCurrentStepIndex index st) index inst) by done.
  done.
Qed.



(** X8.  In the relay deployment, after any sequence of operator actions on
    a console with a socket, a server that handled every emit holds the
    step the session is on as its current instruction, so a display that
    registers then is sent that step. *)
Theorem X8_server_holds_current_step
    (m : gmap string (list Relay.Instruction)) (lk : Relay.Link) (srv : Relay.Server)
    (actions : list Action) (inst : Relay.Instruction) :
  is_Some (Relay.socket lk) →
  is_active (Relay.run (initial m lk) actions).1 = true →
  JS.index (active_steps (Relay.run (initial m lk) actions).1)
    (currentStepIndex (Relay.run (initial m lk) actions).1) = Some inst →
  Relay.currentInstruction
    (Relay.serve srv (Relay.input_of_emit <$> (Relay.run (initial m lk) actions).2))
  = Relay.Object inst
  ∧ ∀ s,
      (Relay.register_role
         (Relay.serve srv (Relay.input_of_emit <$> (Relay.run (initial m lk) actions).2))
         s "patient").2
      = [(Relay.ToAll, Relay.PatientStatus true);
         (Relay.ToSocket s, Relay.PlayInstruction (Relay.Object inst))].
Proof.
  intros [s0 Hsocket] Hact Hinst.
  assert (Hcur : Relay.currentInstruction
            (Relay.serve srv (Relay.input_of_emit <$> (Relay.run (initial m lk) actions).2))
          = Relay.Object inst).
  { unfold Relay.serve. rewrite foldl_fmap.
    assert (Hsome : Some (Relay.currentInstruction
              (foldl (λ srv e, (Relay.handle srv (Relay.input_of_emit e)).1) srv
                 (Relay.run (initial m lk) actions).2)) = Some (Relay.Object inst)).
    { refine (mirror_run Relay.sendInstruction Relay.clearInstruction
                (λ srv e, (Relay.handle srv (Relay.input_of_emit e)).1)
                (λ srv, Some (Relay.currentInstruction srv)) Relay.Object lk _
                (initial m lk) srv actions eq_refl _ Hact inst Hinst).
      - intros t i. unfold Relay.sendInstruction. by rewrite Hsocket.
      - discriminate. }
    by injection Hsome. }
  split; [exact Hcur|].
  intros s. unfold Relay.register_role. rewrite bool_decide_eq_true_2 by done.
  by rewrite Hcur.
Qed.

Lemma X8_witness :
  is_Some (Relay.socket (link Sample.relay_console))
  ∧ is_active (Relay.run Sample.relay_console [Start "thorax"; Next]).1 = true
  ∧ JS.index (active_steps (Relay.run Sample.relay_console [Start "thorax"; Next]).1)
      (currentStepIndex (Relay.run Sample.relay_console [Start "thorax"; Next]).1)
    = Some Sample.row2
  ∧ Relay.currentInstruction
      (Relay.serve Relay.boot
         (Relay.input_of_emit <$> (Relay.run Sample.relay_console [Start "thorax"; Next]).2))
    = Relay.Object Sample.row2.
Proof.
  assert (Hsocket : is_Some (Relay.socket (link Sample.relay_console))) by (by eexists).
  split; [exact Hsocket|]. split; [reflexivity|]. split; [reflexivity|].
  exact (proj1 (X8_server_holds_current_step Sample.relay_scenarios
                  (link Sample.relay_console) Relay.boot [Start "thorax"; Next] Sample.row2
                  Hsocket eq_refl eq_refl)).
Defined.


(** ** Pairing and the display of the direct-code deployment *)

(** X9.  The pairing form dials only with a non-empty code and an existing
    peer.  When it dials, the connection is addressed to
    ["radio-patient-" + code] and the console shows that it is connecting;
    [open] makes the console linked, [close] makes it unlinked again,
    [error] only ends the connecting state; none of them touches the
    session. *)
Theorem X9_pairing_lifecycle (st : Direct.Staff) :
  ((Direct.patientCode (link st) = "" ∨ Direct.peerRef (link st) = false) →
   Direct.connectToPatient st = (st, None))
  ∧ (Direct.patientCode (link st) ≠ "" → Direct.peerRef (link st) = true →
     let conn := Direct.mkConn (Direct.fullId (Direct.patientCode (link st))) in
     (Direct.connectToPatient st).2 = Some conn
     ∧ Direct.isConnecting (link (Direct.connectToPatient st).1) = true
     ∧ Direct.linked (link (Direct.on_open conn (Direct.connectToPatient st).1))
     ∧ Direct.isConnecting (link (Direct.on_open conn (Direct.connectToPatient st).1))
       = false
     ∧ ¬ Direct.linked
           (link (Direct.on_close (Direct.on_open conn (Direct.connectToPatient st).1)))
     ∧ Direct.isConnecting (link (Direct.on_error (Direct.connectToPatient st).1)) = false
     ∧ (Direct.linked (link (Direct.on_error (Direct.connectToPatient st).1))
        ↔ Direct.linked (link st))
     ∧ activeScenarioId (Direct.on_open conn (Direct.connectToPatient st).1)
       = activeScenarioId st
     ∧ currentStepIndex (Direct.on_open conn (Direct.connectToPatient st).1)
       = currentStepIndex st
     ∧ instructionsByScenario (Direct.on_open conn (Direct.connectToPatient st).1)
       = instructionsByScenario st).
Proof.
  split.
  - unfold Direct.connectToPatient. intros [Hcode | Hpeer].
    + by rewrite Hcode.
    + rewrite Hpeer. by destruct (JS.truthy_string _).
  - intros Hcode%truthy_string_spec Hpeer conn. subst conn. unfold Direct.connectToPatient.
    rewrite Hcode, Hpeer. cbn [negb orb fst snd].
    split; [done|]. split; [done|]. split; [by split; [eexists|]|].
    split; [done|]. split; [by intros [[? [=]] _]|]. split; [done|].
    split; [|done]. unfold Direct.linked. by destruct st as [? [] ? ? ?].
Qed.

Lemma X9_witness :
  Direct.patientCode (link Sample.console) ≠ ""
  ∧ Direct.peerRef (link Sample.console) = true
  ∧ (Direct.connectToPatient Sample.console).2
    = Some (Direct.mkConn "radio-patient-4821").
Proof.
  assert (Hcode : Direct.patientCode (link Sample.console) ≠ "") by discriminate.
  split; [exact Hcode|]. split; [reflexivity|].
  exact (proj1 (proj2 (X9_pairing_lifecycle Sample.console) Hcode eq_refl)).
Defined.

Lemma receive_frame d msg :
  Display.peerId (Display.receive d msg) = Display.peerId d
  ∧ Display.listening (Display.receive d msg) = Display.listening d
  ∧ Display.isConnected (Display.receive d msg) = Display.isConnected d.
Proof. by destruct msg. Qed.

Lemma receive_all_frame d msgs :
  Display.peerId (Display.receive_all d msgs) = Display.peerId d
  ∧ Display.listening (Display.receive_all d msgs) = Display.listening d
  ∧ Display.isConnected (Display.receive_all d msgs) = Display.isConnected d.
Proof.
  revert d. induction msgs as [|msg msgs IH]; intros d; [done|].
  change (Display.receive_all d (msg :: msgs))
    with (Display.receive_all (Display.receive d msg) msgs).
  destruct (IH (Display.receive d msg)) as (-> & -> & ->).
  apply receive_frame.
Qed.

(** X10.  The last message wins: after any sequence of messages the
    instruction and the media of the display are those of the last message
    alone ([clear] gives the idle screen with no media), and the code, the
    listening identifier and the connection flag are untouched. *)
Theorem X10_last_message_wins (d : Display.State) (msgs : list Direct.Message)
    (last : Direct.Message) :
  Display.receive_all d (msgs ++ [last])
  = Display.receive
      (Display.mkState None (Display.peerId d) (Display.listening d)
         (Display.isConnected d) None) last
  ∧ (last = Direct.MsgClear →
     Display.idle (Display.receive_all d (msgs ++ [last])) = true
     ∧ Display.rendered_media (Display.receive_all d (msgs ++ [last])) = None).
Proof.
  assert (Heq : Display.receive_all d (msgs ++ [last])
    = Display.receive
        (Display.mkState None (Display.peerId d) (Display.listening d)
           (Display.isConnected d) None) last).
  { unfold Display.receive_all. rewrite foldl_app. cbn [foldl].
    fold (Display.receive_all d msgs).
    destruct (receive_all_frame d msgs) as (<- & <- & <-).
    by destruct last. }
  split; [exact Heq|]. intros ->. by rewrite Heq.
Qed.

Lemma X10_witness :
  Display.idle
    (Display.receive_all (Display.mount "4821")
       ([Direct.MsgInstruction (Direct.payload_of Sample.step2)] ++ [Direct.MsgClear]))
  = true.
Proof.
  exact (proj1 (proj2 (X10_last_message_wins (Display.mount "4821")
                         [Direct.MsgInstruction (Direct.payload_of Sample.step2)]
                         Direct.MsgClear) eq_refl)).
Defined.

(** X11.  No replay on reconnect in the direct-code deployment: when the
    connection closes and a new one opens, the display has dropped what it
    showed and stays idle (same code, same listening identifier) although
    the console's session is still on its step; the step is on screen again
    only once the operator jumps to the current index. *)
Theorem X11_reconnect_needs_operator
    (st : Direct.Staff) (d : Display.State) (conn : Direct.DataConnection)
    (inst : Direct.Instruction) :
  is_active st = true →
  JS.index (active_steps st) (currentStepIndex st) = Some inst →
  let st' := Direct.on_open conn (Direct.on_close st) in
  let d' := Display.on_open (Display.media_effect (Display.on_close d)) in
  Display.idle d' = true
  ∧ Display.rendered_media d' = None
  ∧ Display.peerId d' = Display.peerId d
  ∧ Display.listening d' = Display.listening d
  ∧ is_active st' = true
  ∧ currentStepIndex st' = currentStepIndex st
  ∧ Display.instruction
      (Display.receive_all d' (Direct.goToStep st' (currentStepIndex st)).2)
    = Some (Direct.payload_of inst).
Proof.
  intros Hact Hinst st' d'. repeat (split; [done|]).
  unfold Direct.goToStep.
  by rewrite (goToStep_in_range Direct.sendInstruction st' (currentStepIndex st) inst).
Qed.

Lemma X11_witness :
  let st := (Direct.run Sample.console [Start "thorax"; Next]).1 in
  let d := Display.receive_all (Display.on_open (Display.mount "4821"))
             (Direct.run Sample.console [Start "thorax"; Next]).2 in
  let conn := Direct.mkConn "radio-patient-4821" in
  is_active st = true
  ∧ JS.index (active_steps st) (currentStepIndex st) = Some Sample.step2
  ∧ Display.idle (Display.on_open (Display.media_effect (Display.on_close d))) = true
  ∧ Display.instruction
      (Display.receive_all (Display.on_open (Display.media_effect (Display.on_close d)))
         (Direct.goToStep (Direct.on_open conn (Direct.on_close st))
            (currentStepIndex st)).2)
    = Some (Direct.payload_of Sample.step2).
Proof.
  pose proof (X11_reconnect_needs_operator
                (Direct.run Sample.console [Start "thorax"; Next]).1
                (Display.receive_all (Display.on_open (Display.mount "4821"))
                   (Direct.run Sample.console [Start "thorax"; Next]).2)
                (Direct.mkConn "radio-patient-4821") Sample.step2 eq_refl eq_refl)
    as (Hidle & _ & _ & _ & _ & _ & Hshown).
  split; [reflexivity|]. split; [reflexivity|]. split; [exact Hidle | exact Hshown].
Defined.

(** X12.  Both deployments play a file as a video exactly when its MIME
    type starts with ["video/"], and as an image otherwise: the relay server
    stores ['video'] or ['image'] and its display tests for ['video'], the
    direct display tests the MIME type itself. *)
Theorem X12_media_kind_agreement (mimetype : string) :
  Upload.display_kind (Some (Upload.stored_media_type mimetype))
  = Display.media_kind (Some mimetype)
  ∧ (Display.media_kind (Some mimetype) = Display.Video
     ↔ JS.startsWith "video/" mimetype = true)
  ∧ Upload.display_kind None = Display.media_kind None.
Proof.
  unfold Upload.display_kind, Upload.stored_media_type, Display.media_kind.
  destruct (JS.startsWith "video/" mimetype); (split; [done|]); split; done.
Qed.

Lemma X12_witness :
  JS.startsWith "video/" "video/mp4" = true
  ∧ Display.media_kind (Some "video/mp4") = Display.Video
  ∧ Upload.display_kind (Some (Upload.stored_media_type "video/mp4")) = Display.Video.
Proof.
  assert (Hvideo : JS.startsWith "video/" "video/mp4" = true) by reflexivity.
  assert (Hkind : Display.media_kind (Some "video/mp4") = Display.Video)
    by exact (proj2 (proj1 (proj2 (X12_media_kind_agreement "video/mp4"))) Hvideo).
  split; [exact Hvideo|]. split; [exact Hkind|].
  rewrite (proj1 (X12_media_kind_agreement "video/mp4")). exact Hkind.
Defined.


(** ** The relay server's rooms, status flag and history *)

Lemma join_lookup room s (rs : gmap string (gset Relay.SocketId)) r :
  Relay.join room s rs !! r
  = if decide (room = r) then Some ({[s]} ∪ default ∅ (rs !! room)) else rs !! r.
Proof. unfold Relay.join. by rewrite lookup_insert. Qed.

Lemma leave_all_lookup s (rs : gmap string (gset Relay.SocketId)) r members :
  Relay.leave_all s rs !! r = Some members
  ↔ members ≠ ∅ ∧ ∃ before, rs !! r = Some before ∧ members = before ∖ {[s]}.
Proof.
  unfold Relay.leave_all. rewrite map_lookup_filter_Some, lookup_fmap_Some. simpl.
  split.
  - intros [(before & Hm & Hb) Hne]. split; [done|]. by exists before.
  - intros [Hne (before & Hb & Hm)]. split; [|done]. by exists before.
Qed.

(** The state the handlers keep: no stored room is empty, and while the
    patient room exists the flag says connected. *)
Lemma server_invariant_handle srv i :
  (∀ room members, Relay.rooms srv !! room = Some members → members ≠ ∅) →
  (is_Some (Relay.rooms srv !! "patient_room") → Relay.srv_patientConnected srv = true) →
  (∀ room members, Relay.rooms (Relay.handle srv i).1 !! room = Some members → members ≠ ∅)
  ∧ (is_Some (Relay.rooms (Relay.handle srv i).1 !! "patient_room") →
     Relay.srv_patientConnected (Relay.handle srv i).1 = true).
Proof.
  intros Hrooms Hflag. destruct i as [s role| | |s|]; cbn [Relay.handle].
  - unfold Relay.register_role. repeat case_bool_decide; cbn [fst Relay.rooms
      Relay.srv_patientConnected]; [| |done].
    + split; [|done]. intros room members. rewrite join_lookup.
      case_decide; [|apply Hrooms]. intros [= <-]. set_solver.
    + split.
      * intros room members. rewrite join_lookup.
        case_decide; [|apply Hrooms]. intros [= <-]. set_solver.
      * rewrite join_lookup. by rewrite decide_False by done.
  - done.
  - done.
  - cbn [Relay.disconnect fst Relay.rooms Relay.srv_patientConnected]. split.
    + intros room members Hl. by apply leave_all_lookup in Hl as [? _].
    + intros [members Hl]. apply leave_all_lookup in Hl as [_ (before & Hb & _)].
      apply Hflag. by eexists.
  - unfold Relay.disconnect_timeout.
    destruct (Relay.rooms srv !! "patient_room") as [members|] eqn:Hroom.
    + assert (Hsize : (0 <? size members)%nat = true).
      { apply Nat.ltb_lt. pose proof (Hrooms _ _ Hroom) as Hne.
        assert (Hsz : size members ≠ 0%nat)
          by (apply size_non_empty_iff; by intros Heq%leibniz_equiv).
        lia. }
      rewrite Hsize. rewrite Hflag by (by eexists). cbn [Bool.eqb negb fst].
      split; [exact Hrooms|]. intros _. apply Hflag. by eexists.
    + destruct (Relay.srv_patientConnected srv); cbn [negb Bool.eqb fst Relay.rooms];
        (split; [done|]); rewrite Hroom; by intros [? ?].
Qed.

(** X13.  After any history of inputs the server never reports the display
    as disconnected while a display socket is registered: whenever the
    patient room exists it is not empty and [patientConnected] is [true];
    more generally no stored room is empty. *)
Theorem X13_flag_covers_patient_room (inputs : list Relay.Input) :
  (∀ room members,
     Relay.rooms (Relay.serve Relay.boot inputs) !! room = Some members → members ≠ ∅)
  ∧ (∀ members,
     Relay.rooms (Relay.serve Relay.boot inputs) !! "patient_room" = Some members →
     Relay.srv_patientConnected (Relay.serve Relay.boot inputs) = true).
Proof.
  assert (Hinv : (∀ room members,
     Relay.rooms (Relay.serve Relay.boot inputs) !! room = Some members → members ≠ ∅)
    ∧ (is_Some (Relay.rooms (Relay.serve Relay.boot inputs) !! "patient_room") →
       Relay.srv_patientConnected (Relay.serve Relay.boot inputs) = true)).
  { induction inputs as [|i inputs IH] using rev_ind.
    - split.
      + intros room members Hl. unfold Relay.serve, Relay.boot in Hl.
        cbn [foldl Relay.rooms] in Hl. by rewrite lookup_empty in Hl.
      + unfold Relay.serve, Relay.boot. cbn [foldl Relay.rooms]. rewrite lookup_empty.
        by intros [? ?].
    - rewrite serve_snoc. destruct IH as [Hrooms Hflag].
      by apply server_invariant_handle. }
  destruct Hinv as [Hrooms Hflag]. split; [exact Hrooms|].
  intros members Hl. apply Hflag. by eexists.
Qed.

Lemma X13_witness :
  Relay.rooms (Relay.serve Relay.boot
                 [Relay.RegisterRole "d1" "patient"; Relay.RegisterRole "d2" "patient";
                  Relay.Disconnect "d1"; Relay.DisconnectTimeout]) !! "patient_room"
  = Some {["d2"]}
  ∧ Relay.srv_patientConnected
      (Relay.serve Relay.boot
         [Relay.RegisterRole "d1" "patient"; Relay.RegisterRole "d2" "patient";
          Relay.Disconnect "d1"; Relay.DisconnectTimeout]) = true.
Proof.
  assert (Hroom : Relay.rooms (Relay.serve Relay.boot
                 [Relay.RegisterRole "d1" "patient"; Relay.RegisterRole "d2" "patient";
                  Relay.Disconnect "d1"; Relay.DisconnectTimeout]) !! "patient_room"
            = Some {["d2"]}) by (vm_compute; reflexivity).
  split; [exact Hroom|].
  exact (proj2 (X13_flag_covers_patient_room _) _ Hroom).
Defined.

(** X14.  The timer armed by a disconnect sets [patientConnected] to whether
    the patient room still has a member and broadcasts the status exactly
    when that changes the flag; a second firing changes and sends nothing.
    So after the sockets of the patient room close, [status(false)] is
    broadcast once, and only when the last one has left. *)
Theorem X14_disconnect_timeout (srv : Relay.Server) :
  let present :=
    match Relay.rooms srv !! "patient_room" with
    | Some patientRoom => (0 <? size patientRoom)%nat
    | None => false
    end in
  Relay.srv_patientConnected (Relay.disconnect_timeout srv).1 = present
  ∧ Relay.currentInstruction (Relay.disconnect_timeout srv).1 = Relay.currentInstruction srv
  ∧ Relay.rooms (Relay.disconnect_timeout srv).1 = Relay.rooms srv
  ∧ (Relay.disconnect_timeout srv).2
    = (if Bool.eqb (Relay.srv_patientConnected srv) present
       then []
       else [(Relay.ToAll, Relay.PatientStatus present)])
  ∧ Relay.disconnect_timeout (Relay.disconnect_timeout srv).1
    = ((Relay.disconnect_timeout srv).1, [])
  ∧ ∀ s members,
      Relay.srv_patientConnected srv = true →
      Relay.rooms srv !! "patient_room" = Some members →
      (Relay.disconnect_timeout (Relay.disconnect srv s).1).2
      = if decide (members ∖ {[s]} = ∅)
        then [(Relay.ToAll, Relay.PatientStatus false)]
        else [].
Proof.
  intros present. subst present. unfold Relay.disconnect_timeout at 1 2 3 4.
  split; [|split; [|split; [|split; [|split]]]].
  - destruct (Relay.srv_patientConnected srv) eqn:Hf;
      destruct (match Relay.rooms srv !! "patient_room" with
                | Some r => (0 <? size r)%nat | None => false end) eqn:Hp; done.
  - by destruct (negb _).
  - by destruct (negb _).
  - by destruct (Bool.eqb _ _).
  - unfold Relay.disconnect_timeout.
    destruct (Relay.srv_patientConnected srv) eqn:Hf;
      destruct (match Relay.rooms srv !! "patient_room" with
                | Some r => (0 <? size r)%nat | None => false end) eqn:Hp;
      cbn [negb Bool.eqb fst Relay.rooms Relay.srv_patientConnected];
      rewrite ?Hp, ?Hf; done.
  - intros s members Hflag Hroom. unfold Relay.disconnect_timeout.
    cbn [Relay.disconnect fst Relay.rooms Relay.srv_patientConnected]. rewrite Hflag.
    case_decide as Hlast.
    + assert (Hnone : Relay.leave_all s (Relay.rooms srv) !! "patient_room" = None).
      { apply eq_None_not_Some. intros [left Hl].
        apply leave_all_lookup in Hl as [Hne (before & Hb & ->)].
        rewrite Hroom in Hb. injection Hb as <-. done. }
      by rewrite Hnone.
    + assert (Hsome : Relay.leave_all s (Relay.rooms srv) !! "patient_room"
                      = Some (members ∖ {[s]})).
      { apply leave_all_lookup. split; [done|]. by exists members. }
      rewrite Hsome.
      assert (Hsize : (0 <? size (members ∖ {[s]}))%nat = true).
      { apply Nat.ltb_lt.
        assert (Hsz : size (members ∖ {[s]}) ≠ 0%nat)
          by (apply size_non_empty_iff; by intros Heq%leibniz_equiv).
        lia. }
      by rewrite Hsize.
Qed.

Lemma X14_witness :
  let srv := Relay.serve Relay.boot
               [Relay.RegisterRole "d1" "patient"; Relay.RegisterRole "d2" "patient"] in
  Relay.srv_patientConnected srv = true
  ∧ Relay.rooms srv !! "patient_room" = Some {["d2"; "d1"]}
  ∧ (Relay.disconnect_timeout (Relay.disconnect srv "d1").1).2
    = (if decide (({["d2"; "d1"]} : gset string) ∖ {["d1"]} = ∅)
       then [(Relay.ToAll, Relay.PatientStatus false)]
       else []).
Proof.
  assert (Hroom : Relay.rooms (Relay.serve Relay.boot
               [Relay.RegisterRole "d1" "patient"; Relay.RegisterRole "d2" "patient"])
             !! "patient_room" = Some {["d2"; "d1"]}) by (vm_compute; reflexivity).
  split; [reflexivity|]. split; [exact Hroom|].
  exact (proj2 (proj2 (proj2 (proj2 (proj2 (X14_disconnect_timeout
           (Relay.serve Relay.boot
              [Relay.RegisterRole "d1" "patient"; Relay.RegisterRole "d2" "patient"]))))))
           "d1" {["d2"; "d1"]} eq_refl Hroom).
Defined.

(** X15.  The history log holds, in the order of arrival, the id of every
    instruction sent with [send_instruction] that is an object with a
    non-empty id, and nothing else: no other input adds to it and a payload
    that is not such an object is not logged. *)
Theorem X15_history_logs_sent_ids (inputs : list Relay.Input) :
  Relay.history (Relay.serve Relay.boot inputs)
  = omap (λ i, match i with
               | Relay.SendInstruction instruction => Relay.truthy_id instruction
               | _ => None
               end) inputs.
Proof.
  induction inputs as [|i inputs IH] using rev_ind; [done|].
  rewrite serve_snoc, omap_app, <- IH. cbn [omap list_omap].
  destruct i as [s role|instruction| |s|]; cbn [Relay.handle].
  - unfold Relay.register_role. repeat case_bool_decide; cbn [fst Relay.history];
      by rewrite app_nil_r.
  - cbn [Relay.send_instruction fst Relay.history].
    destruct (Relay.truthy_id instruction); [done | by rewrite app_nil_r].
  - cbn [Relay.clear_instruction fst Relay.history]. by rewrite app_nil_r.
  - cbn [Relay.disconnect fst Relay.history]. by rewrite app_nil_r.
  - unfold Relay.disconnect_timeout. destruct (negb _); cbn [fst Relay.history];
      by rewrite app_nil_r.
Qed.

(** X16.  The server sends an instruction only to the patient room or to
    the socket that has just registered as a display, never to all sockets
    or to the staff room; the same holds for the clear event, which goes to
    the patient room only.  A socket that registers as staff is sent the
    current status and nothing else. *)
Theorem X16_instructions_go_to_displays (srv : Relay.Server) (i : Relay.Input) :
  (∀ target instruction,
     (target, Relay.PlayInstruction instruction) ∈ (Relay.handle srv i).2 →
     (target = Relay.ToRoom "patient_room" ∧ i = Relay.SendInstruction instruction)
     ∨ ∃ s, i = Relay.RegisterRole s "patient"
            ∧ target = Relay.ToSocket s
            ∧ instruction = Relay.currentInstruction srv
            ∧ Relay.truthy instruction = true)
  ∧ (∀ target,
       (target, Relay.ClearInstructionEvent) ∈ (Relay.handle srv i).2 →
       target = Relay.ToRoom "patient_room" ∧ i = Relay.ClearInstruction)
  ∧ (∀ s, (Relay.handle srv (Relay.RegisterRole s "staff")).2
          = [(Relay.ToSocket s, Relay.PatientStatus (Relay.srv_patientConnected srv))]).
Proof.
  split; [|split].
  - intros target instruction. destruct i as [s role|sent| |s|]; cbn [Relay.handle].
    + unfold Relay.register_role. case_bool_decide as Hrole.
      * subst role. cbn [snd]. destruct (Relay.truthy (Relay.currentInstruction srv)) eqn:Ht.
        -- rewrite !elem_of_cons, elem_of_nil. intros [[=]|[[= -> ->]|[]]].
           right. by exists s.
        -- rewrite elem_of_cons, elem_of_nil. by intros [[=]|[]].
      * case_bool_decide; cbn [snd].
        -- rewrite elem_of_cons, elem_of_nil. by intros [[=]|[]].
        -- by rewrite elem_of_nil.
    + cbn [Relay.send_instruction snd]. rewrite !elem_of_cons, elem_of_nil.
      intros [[= -> ->]|[[=]|[]]]. by left.
    + cbn [Relay.clear_instruction snd]. rewrite elem_of_cons, elem_of_nil.
      by intros [[=]|[]].
    + cbn [Relay.disconnect snd]. by rewrite elem_of_nil.
    + unfold Relay.disconnect_timeout. destruct (negb _); cbn [snd].
      * rewrite elem_of_cons, elem_of_nil. by intros [[=]|[]].
      * by rewrite elem_of_nil.
  - intros target. destruct i as [s role|sent| |s|]; cbn [Relay.handle].
    + unfold Relay.register_role. case_bool_decide as Hrole.
      * cbn [snd]. destruct (Relay.truthy (Relay.currentInstruction srv)).
        -- rewrite !elem_of_cons, elem_of_nil. by intros [[=]|[[=]|[]]].
        -- rewrite elem_of_cons, elem_of_nil. by intros [[=]|[]].
      * case_bool_decide; cbn [snd].
        -- rewrite elem_of_cons, elem_of_nil. by intros [[=]|[]].
        -- by rewrite elem_of_nil.
    + cbn [Relay.send_instruction snd]. rewrite !elem_of_cons, elem_of_nil.
      by intros [[=]|[[=]|[]]].
    + cbn [Relay.clear_instruction snd]. rewrite elem_of_cons, elem_of_nil.
      by intros [[= ->]|[]].
    + cbn [Relay.disconnect snd]. by rewrite elem_of_nil.
    + unfold Relay.disconnect_timeout. destruct (negb _); cbn [snd].
      * rewrite elem_of_cons, elem_of_nil. by intros [[=]|[]].
      * by rewrite elem_of_nil.
  - intros s. cbn [Relay.handle]. unfold Relay.register_role.
    rewrite bool_decide_eq_false_2 by discriminate.
    by rewrite bool_decide_eq_true_2.
Qed.

Lemma X16_witness :
  (Relay.ToRoom "patient_room", Relay.PlayInstruction (Relay.Object Sample.row1))
  ∈ (Relay.handle Relay.boot (Relay.SendInstruction (Relay.Object Sample.row1))).2
  ∧ ((Relay.ToRoom "patient_room" = Relay.ToRoom "patient_room"
      ∧ Relay.SendInstruction (Relay.Object Sample.row1)
        = Relay.SendInstruction (Relay.Object Sample.row1))
     ∨ ∃ s, Relay.SendInstruction (Relay.Object Sample.row1) = Relay.RegisterRole s "patient"
            ∧ Relay.ToRoom "patient_room" = Relay.ToSocket s
            ∧ Relay.Object Sample.row1 = Relay.currentInstruction Relay.boot
            ∧ Relay.truthy (Relay.Object Sample.row1) = true).
Proof.
  assert (Hin : (Relay.ToRoom "patient_room", Relay.PlayInstruction (Relay.Object Sample.row1))
    ∈ (Relay.handle Relay.boot (Relay.SendInstruction (Relay.Object Sample.row1))).2)
    by left.
  split; [exact Hin|].
  exact (proj1 (X16_instructions_go_to_displays Relay.boot
                  (Relay.SendInstruction (Relay.Object Sample.row1))) _ _ Hin).
Defined.


(** ** The local instruction store *)

Lemma items_values {V} (store : gmap string V) :
  Store.items store = (map_to_list store).*2.
Proof.
  unfold Store.items, Store.keys.
  assert (H : ∀ l : list (string * V),
             (∀ k v, (k, v) ∈ l → store !! k = Some v) →
             omap (λ key, store !! key) l.*1 = l.*2).
  { induction l as [|[k v] l IH]; intros Hl; [done|].
    cbn [fmap list_fmap omap list_omap]. simpl.
    rewrite (Hl k v) by left. f_equal. apply IH. intros k' v' Hin. apply Hl. by right. }
  apply H. intros k v Hin. by apply elem_of_map_to_list.
Qed.

Lemma map_to_list_filter_perm {V} (P : string * V → Prop) `{!∀ x, Decision (P x)}
    (m : gmap string V) :
  map_to_list (filter P m) ≡ₚ filter P (map_to_list m).
Proof.
  apply NoDup_Permutation.
  - apply NoDup_map_to_list.
  - apply NoDup_filter, NoDup_map_to_list.
  - intros [k v]. rewrite elem_of_map_to_list, map_lookup_filter_Some.
    rewrite list_elem_of_filter, elem_of_map_to_list. tauto.
Qed.

Lemma getInstructions_perm (db : Store.DB) scenarioId :
  Store.getInstructions db scenarioId
  ≡ₚ (map_to_list (filter (λ kv : string * Direct.Instruction,
                             Direct.scenario_id kv.2 = scenarioId)
                     (Store.instructionsStore db))).*2.
Proof.
  unfold Store.getInstructions. rewrite items_values, map_to_list_filter_perm.
  generalize (map_to_list (Store.instructionsStore db)).
  induction l as [|[k v] l IH]; [done|].
  cbn [fmap list_fmap]. rewrite !filter_cons. simpl.
  case_decide; cbn [fmap list_fmap]; by rewrite IH.
Qed.

Lemma elem_of_getInstructions (db : Store.DB) scenarioId inst :
  inst ∈ Store.getInstructions db scenarioId
  ↔ (∃ key, Store.instructionsStore db !! key = Some inst)
    ∧ Direct.scenario_id inst = scenarioId.
Proof.
  unfold Store.getInstructions. rewrite list_elem_of_filter, items_values, list_elem_of_fmap.
  split.
  - intros [Hs ([k v] & -> & Hin)]. split; [|done]. exists k. by apply elem_of_map_to_list.
  - intros [[k Hk] Hs]. split; [done|]. exists (k, inst). split; [done|].
    by apply elem_of_map_to_list.
Qed.

(** The loop of [deleteScenario] removes exactly the visited keys whose
    item belongs to the scenario. *)
Lemma delete_loop_lookup (scenarioId : string) (ks : list string)
    (store : gmap string Direct.Instruction) (k : string) :
  foldl (λ store key,
           match store !! key with
           | Some inst =>
               if bool_decide (Direct.scenario_id inst = scenarioId)
               then delete key store
               else store
           | None => store
           end) store ks !! k
  = match store !! k with
    | Some inst =>
        if bool_decide (k ∈ ks ∧ Direct.scenario_id inst = scenarioId)
        then None else Some inst
    | None => None
    end.
Proof.
  revert store. induction ks as [|key ks IH]; intros store.
  - cbn [foldl]. destruct (store !! k); [|done].
    rewrite bool_decide_eq_false_2; [done|]. intros [Hin _]. by apply elem_of_nil in Hin.
  - cbn [foldl]. rewrite IH. clear IH.
    destruct (decide (key = k)) as [->|Hne].
    + destruct (store !! k) as [inst|] eqn:Hk.
      * case_bool_decide as Hs.
        -- rewrite lookup_delete_eq. rewrite bool_decide_eq_true_2; [done|].
           split; [left|done].
        -- rewrite Hk. by rewrite !bool_decide_eq_false_2 by (intros [? ?]; done).
      * by rewrite Hk.
    + assert (Hsame : match store !! key with
                      | Some inst =>
                          if bool_decide (Direct.scenario_id inst = scenarioId)
                          then delete key store else store
                      | None => store
                      end !! k = store !! k).
      { destruct (store !! key); [|done]. case_bool_decide; [|done].
        by rewrite lookup_delete_ne. }
      rewrite Hsame. destruct (store !! k) as [inst|]; [|done].
      rewrite (bool_decide_ext (k ∈ key :: ks ∧ Direct.scenario_id inst = scenarioId)
                 (k ∈ ks ∧ Direct.scenario_id inst = scenarioId)); [done|].
      rewrite elem_of_cons. split.
      * intros [[Heq|Hin] Hs]; [congruence | done].
      * intros [Hin Hs]. split; [by right | done].
Qed.

Lemma deleteScenario_instructions (db : Store.DB) scenarioId :
  Store.instructionsStore (Store.deleteScenario db scenarioId)
  = filter (λ kv : string * Direct.Instruction, Direct.scenario_id kv.2 ≠ scenarioId)
      (Store.instructionsStore db).
Proof.
  apply map_eq. intros k. unfold Store.deleteScenario. cbn [Store.instructionsStore].
  rewrite delete_loop_lookup, map_lookup_filter.
  destruct (Store.instructionsStore db !! k) as [inst|] eqn:Hk; [|done].
  simpl. case_bool_decide as Hc.
  - destruct Hc as [_ Hs]. by rewrite option_guard_False by (simpl; tauto).
  - rewrite option_guard_True; [done|]. simpl. intros Hs. apply Hc. split; [|done].
    unfold Store.keys. apply list_elem_of_fmap. exists (k, inst). split; [done|].
    by apply elem_of_map_to_list.
Qed.

(** X17.  Deleting a scenario removes it and all its steps and nothing else:
    afterwards the scenario has no steps, and every other scenario and its
    steps are as before. *)
Theorem X17_deleteScenario_cascades (db : Store.DB) (scenarioId : string) :
  Store.scenariosStore (Store.deleteScenario db scenarioId) !! scenarioId = None
  ∧ Store.getInstructions (Store.deleteScenario db scenarioId) scenarioId = []
  ∧ ∀ other, other ≠ scenarioId →
      Store.scenariosStore (Store.deleteScenario db scenarioId) !! other
      = Store.scenariosStore db !! other
      ∧ Store.getInstructions (Store.deleteScenario db scenarioId) other
        ≡ₚ Store.getInstructions db other.
Proof.
  split; [apply lookup_delete_eq|]. split.
  - apply elem_of_nil_inv. intros inst.
    rewrite elem_of_getInstructions, deleteScenario_instructions.
    intros [[k Hk] Hs]. apply map_lookup_filter_Some in Hk as [_ Hne]. done.
  - intros other Hother. split; [by apply lookup_delete_ne|].
    rewrite !getInstructions_perm, deleteScenario_instructions.
    rewrite map_filter_filter_l; [done|].
    intros k inst _ Hs. simpl in *. congruence.
Qed.

Lemma X17_witness :
  "hand" ≠ "knee"
  ∧ Store.getInstructions (Store.deleteScenario SampleStore.db "knee") "knee" = []
  ∧ Store.getInstructions (Store.deleteScenario SampleStore.db "knee") "hand"
    ≡ₚ Store.getInstructions SampleStore.db "hand".
Proof.
  assert (Hother : "hand" ≠ "knee") by discriminate.
  destruct (X17_deleteScenario_cascades SampleStore.db "knee") as (_ & Hgone & Hrest).
  split; [exact Hother|]. split; [exact Hgone|].
  exact (proj2 (Hrest "hand" Hother)).
Defined.

Lemma getInstructions_insert_fresh scenarios (store : gmap string Direct.Instruction)
    key inst scenarioId :
  store !! key = None →
  Store.getInstructions (Store.mkDB scenarios (<[key := inst]> store)) scenarioId
  ≡ₚ (if decide (Direct.scenario_id inst = scenarioId) then [inst] else [])
     ++ Store.getInstructions (Store.mkDB scenarios store) scenarioId.
Proof.
  intros Hfresh. unfold Store.getInstructions. cbn [Store.instructionsStore].
  rewrite !items_values, map_to_list_insert by done.
  cbn [fmap list_fmap]. rewrite filter_cons. simpl. by case_decide.
Qed.

Lemma create_loop_other (uuid : nat → string) scenarioId
    (store : gmap string Direct.Instruction) (n : nat) (k : string) :
  (∀ i, (i < n)%nat → k ≠ uuid (S i)) →
  foldl (λ store i, <[uuid (S i) := Store.placeholder scenarioId (uuid (S i)) i]> store)
    store (seq 0 n) !! k = store !! k.
Proof.
  induction n as [|n IH]; intros Hk; [done|].
  rewrite seq_S, foldl_app. cbn [foldl]. simpl.
  rewrite lookup_insert_ne by (intros Heq; by apply (Hk n); [lia|]).
  apply IH. intros i Hi. apply Hk. lia.
Qed.

Lemma create_loop_instructions (uuid : nat → string) scenarios scenarioId
    (store : gmap string Direct.Instruction) (n : nat) sid :
  (∀ i j, uuid i = uuid j → i = j) →
  (∀ i, store !! uuid i = None) →
  Store.getInstructions
    (Store.mkDB scenarios
       (foldl (λ store i, <[uuid (S i) := Store.placeholder scenarioId (uuid (S i)) i]> store)
          store (seq 0 n))) sid
  ≡ₚ (if decide (scenarioId = sid)
      then (λ i, Store.placeholder scenarioId (uuid (S i)) i) <$> seq 0 n
      else [])
     ++ Store.getInstructions (Store.mkDB scenarios store) sid.
Proof.
  intros Hinj Hfresh. induction n as [|n IH].
  - simpl. by case_decide.
  - rewrite seq_S, foldl_app. cbn [foldl]. simpl.
    rewrite getInstructions_insert_fresh.
    + rewrite IH. cbn [Store.placeholder Direct.scenario_id].
      case_decide; [|done]. rewrite fmap_app. cbn [fmap list_fmap app].
      rewrite <- (assoc_L (++)). cbn [app].
      by rewrite (Permutation_middle _ _ (Store.placeholder scenarioId (uuid (S n)) n)).
    + rewrite create_loop_other; [apply Hfresh|].
      intros i Hi Heq. apply Hinj in Heq. lia.
Qed.

Lemma create_loop_well_formed (uuid : nat → string) scenarioId
    (store : gmap string Direct.Instruction) (n : nat) :
  (∀ key inst, store !! key = Some inst →
     Direct.id inst = key ∧ Direct.media_type inst = Direct.blob_type <$> Direct.media inst) →
  ∀ key inst,
    foldl (λ store i, <[uuid (S i) := Store.placeholder scenarioId (uuid (S i)) i]> store)
      store (seq 0 n) !! key = Some inst →
    Direct.id inst = key ∧ Direct.media_type inst = Direct.blob_type <$> Direct.media inst.
Proof.
  intros Hwf. induction n as [|n IH]; [done|].
  rewrite seq_S, foldl_app. cbn [foldl]. simpl. intros key inst.
  rewrite lookup_insert. case_decide as Hkey.
  - intros [= <-]. by subst key.
  - apply IH.
Qed.

(** X18.  [createScenario] stores the scenario under a new id with exactly the
    requested number of placeholder steps (none for a count that is zero,
    negative or [NaN]), touches no other scenario, and keeps the store well
    formed. *)
Theorem X18_createScenario_steps (db : Store.DB) (uuid : nat → string) (name : string)
    (stepsCount : option Z) :
  Store.fresh uuid db →
  (Store.createScenario db uuid name stepsCount).2 = Store.mkScenario (uuid O) name
  ∧ Store.scenariosStore (Store.createScenario db uuid name stepsCount).1 !! uuid O
    = Some (Store.mkScenario (uuid O) name)
  ∧ Store.getInstructions (Store.createScenario db uuid name stepsCount).1 (uuid O)
    ≡ₚ (λ i, Store.placeholder (uuid O) (uuid (S i)) i) <$> seq 0 (Store.iterations stepsCount)
  ∧ List.length (Store.getInstructions (Store.createScenario db uuid name stepsCount).1 (uuid O))
    = Store.iterations stepsCount
  ∧ (∀ other, other ≠ uuid O →
       Store.scenariosStore (Store.createScenario db uuid name stepsCount).1 !! other
       = Store.scenariosStore db !! other
       ∧ Store.getInstructions (Store.createScenario db uuid name stepsCount).1 other
         ≡ₚ Store.getInstructions db other)
  ∧ (Store.well_formed db →
     Store.well_formed (Store.createScenario db uuid name stepsCount).1).
Proof.
  intros (Hinj & Hsc & Hin & Hscen).
  assert (Hold : Store.getInstructions db (uuid O) = []).
  { apply elem_of_nil_inv. intros inst [[k Hk] Hs]%elem_of_getInstructions.
    by apply (Hscen O k inst). }
  assert (Hnew : Store.getInstructions (Store.createScenario db uuid name stepsCount).1 (uuid O)
    ≡ₚ (λ i, Store.placeholder (uuid O) (uuid (S i)) i) <$> seq 0 (Store.iterations stepsCount)).
  { unfold Store.createScenario. cbn [fst Store.id].
    rewrite create_loop_instructions by done.
    rewrite decide_True by done.
    replace (Store.getInstructions _ (uuid O)) with (@nil Direct.Instruction)
      by (symmetry; exact Hold).
    by rewrite app_nil_r. }
  split; [done|]. split; [apply lookup_insert_eq|]. split; [exact Hnew|].
  split; [by rewrite Hnew, length_fmap, length_seq|]. split.
  - intros other Hother. split; [by apply lookup_insert_ne|].
    unfold Store.createScenario. cbn [fst Store.id].
    rewrite create_loop_instructions by done.
    by rewrite decide_False by done.
  - intros [Hws Hwi]. split.
    + intros key s. unfold Store.createScenario. cbn [fst Store.scenariosStore Store.id].
      rewrite lookup_insert. case_decide; [by intros [= <-]|apply Hws].
    + unfold Store.createScenario. cbn [fst Store.instructionsStore Store.id].
      by apply create_loop_well_formed.
Qed.

Lemma sample_uuid_inj i j : SampleStore.uuid i = SampleStore.uuid j → i = j.
Proof.
  unfold SampleStore.uuid. intros H.
  assert (Hp : pretty (Z.of_nat i) = pretty (Z.of_nat j)).
  { revert H. generalize (pretty (Z.of_nat i)) (pretty (Z.of_nat j)).
    intros a b H. cbv in H. congruence. }
  apply (inj pretty) in Hp. lia.
Qed.

Lemma sample_uuid_head i : ∃ rest, SampleStore.uuid i = String "i" rest.
Proof.
  unfold SampleStore.uuid. generalize (pretty (Z.of_nat i)). intros a.
  eexists. cbv. reflexivity.
Qed.

Lemma sample_fresh : Store.fresh SampleStore.uuid SampleStore.db.
Proof.
  split; [exact sample_uuid_inj|].
  assert (Hne : ∀ i key, (∃ c rest, key = String c rest ∧ c ≠ "i"%char) →
                         key ≠ SampleStore.uuid i).
  { intros i key (c & rest & -> & Hc) Heq.
    destruct (sample_uuid_head i) as [r Hr]. rewrite Hr in Heq. congruence. }
  split; [|split].
  - intros i. unfold SampleStore.db. cbn [Store.scenariosStore].
    rewrite !lookup_insert_ne, lookup_empty; [done|..]; apply Hne; by eexists _, _.
  - intros i. unfold SampleStore.db. cbn [Store.instructionsStore].
    rewrite !lookup_insert_ne, lookup_empty; [done|..]; apply Hne; by eexists _, _.
  - intros i key inst. unfold SampleStore.db. cbn [Store.instructionsStore].
    rewrite !lookup_insert. repeat case_decide; rewrite ?lookup_empty;
      intros [= <-]; apply Hne; by eexists _, _.
Qed.

Lemma sample_well_formed : Store.well_formed SampleStore.db.
Proof.
  split.
  - intros key s. unfold SampleStore.db. cbn [Store.scenariosStore].
    rewrite !lookup_insert. repeat case_decide; rewrite ?lookup_empty; by intros [= <-].
  - intros key inst. unfold SampleStore.db. cbn [Store.instructionsStore].
    rewrite !lookup_insert. repeat case_decide; rewrite ?lookup_empty; by intros [= <-].
Qed.

Lemma X18_witness :
  Store.fresh SampleStore.uuid SampleStore.db
  ∧ List.length
      (Store.getInstructions
         (Store.createScenario SampleStore.db SampleStore.uuid "Thorax" (Some 3)).1
         (SampleStore.uuid O)) = 3%nat.
Proof.
  split; [exact sample_fresh|].
  exact (proj1 (proj2 (proj2 (proj2
           (X18_createScenario_steps SampleStore.db SampleStore.uuid "Thorax" (Some 3)
              sample_fresh))))).
Defined.

(** ** Editing a step *)

(** The media the form asks for: none when [remove_media] is checked (even
    if a file is chosen), the chosen non-empty file otherwise, and the
    stored media when no file is chosen. *)
Lemma save_edit_store (db : Store.DB) uuid form instructionId scenarioId inst :
  instructionId ≠ "" →
  Store.instructionsStore db !! instructionId = Some inst →
  Editor.handleSaveInstruction db uuid form (Some instructionId) scenarioId
  = Store.mkDB (Store.scenariosStore db)
      (<[instructionId :=
           Direct.mkInstruction (Direct.id inst) (Direct.scenario_id inst)
             (Editor.form_name form)
             (if Editor.form_remove_media form then None
              else match Editor.chosen_file form with
                   | Some file => Some file
                   | None => Direct.media inst
                   end)
             (if Editor.form_remove_media form then None
              else match Editor.chosen_file form with
                   | Some file => Some (Direct.blob_type file)
                   | None => Direct.media_type inst
                   end)
             (Direct.bg_color inst)]> (Store.instructionsStore db)).
Proof.
  intros Hid%truthy_string_spec Hinst. unfold Editor.handleSaveInstruction.
  cbn [JS.truthy_nullable default]. unfold id. rewrite Hid. cbv zeta.
  destruct (Editor.form_remove_media form);
    [|destruct (Editor.chosen_file form)];
    unfold Store.updateInstruction; by rewrite Hinst.
Qed.

(** X19.  Saving an existing step replaces its text; its media is removed
    when [remove_media] is checked (whatever file is chosen), replaced
    together with its type when a non-empty file is chosen, and kept
    otherwise (an empty file counts as no file).  Nothing else in the store
    changes, and saving under an id that is not stored changes nothing. *)
Theorem X19_save_existing_step (db : Store.DB) (uuid : nat → string)
    (form : Editor.Form) (instructionId : string) (scenarioId : option string)
    (inst : Direct.Instruction) :
  instructionId ≠ "" →
  Store.instructionsStore db !! instructionId = Some inst →
  let db' := Editor.handleSaveInstruction db uuid form (Some instructionId) scenarioId in
  (∃ saved,
     Store.instructionsStore db' !! instructionId = Some saved
     ∧ Direct.name saved = Editor.form_name form
     ∧ Direct.id saved = Direct.id inst
     ∧ Direct.scenario_id saved = Direct.scenario_id inst
     ∧ Direct.bg_color saved = Direct.bg_color inst
     ∧ (Editor.form_remove_media form = true →
        Direct.media saved = None ∧ Direct.media_type saved = None)
     ∧ (Editor.form_remove_media form = false →
        ∀ file, Editor.form_media form = Some file → Direct.blob_bytes file ≠ [] →
                Direct.media saved = Some file
                ∧ Direct.media_type saved = Some (Direct.blob_type file))
     ∧ (Editor.form_remove_media form = false →
        (Editor.form_media form = None
         ∨ ∃ file, Editor.form_media form = Some file ∧ Direct.blob_bytes file = []) →
        Direct.media saved = Direct.media inst
        ∧ Direct.media_type saved = Direct.media_type inst))
  ∧ (∀ key, key ≠ instructionId →
       Store.instructionsStore db' !! key = Store.instructionsStore db !! key)
  ∧ Store.scenariosStore db' = Store.scenariosStore db
  ∧ ∀ missing, missing ≠ "" → Store.instructionsStore db !! missing = None →
      Editor.handleSaveInstruction db uuid form (Some missing) scenarioId = db.
Proof.
  intros Hid Hinst db'. subst db'. rewrite (save_edit_store _ _ _ _ _ inst) by done.
  cbn [Store.instructionsStore Store.scenariosStore].
  split; [|split; [|split; [done|]]].
  - eexists. split; [apply lookup_insert_eq|]. cbn.
    split; [done|]. split; [done|]. split; [done|]. split; [done|].
    split; [by intros ->|]. split.
    + intros -> file Hfile Hbytes. unfold Editor.chosen_file. rewrite Hfile.
      destruct (Z.ltb_spec 0 (JS.length (Direct.blob_bytes file))); [done|].
      unfold JS.length in *. destruct (Direct.blob_bytes file); [done | simpl in *; lia].
    + intros -> Hnone. unfold Editor.chosen_file.
      destruct Hnone as [-> | (file & -> & Hbytes)]; [done|]. by rewrite Hbytes.
  - intros key Hkey. by rewrite lookup_insert_ne.
  - intros missing Hm%truthy_string_spec Hnone. unfold Editor.handleSaveInstruction.
    cbn [JS.truthy_nullable default]. unfold id. rewrite Hm. cbv zeta.
    unfold Store.updateInstruction. rewrite Hnone.
    by destruct (Editor.form_remove_media form), (Editor.chosen_file form).
Qed.

Lemma X19_witness :
  "k-2" ≠ ""
  ∧ Store.instructionsStore SampleStore.db !! "k-2" = Some SampleStore.knee2
  ∧ Store.instructionsStore
      (Editor.handleSaveInstruction SampleStore.db SampleStore.uuid
         (Editor.mkForm "Genou de face" true (Some SampleStore.scan)) (Some "k-2") None)
      !! "k-1" = Some SampleStore.knee1.
Proof.
  assert (Hid : "k-2" ≠ "") by discriminate.
  assert (Hinst : Store.instructionsStore SampleStore.db !! "k-2" = Some SampleStore.knee2)
    by reflexivity.
  split; [exact Hid|]. split; [exact Hinst|].
  rewrite (proj1 (proj2 (X19_save_existing_step SampleStore.db SampleStore.uuid
             (Editor.mkForm "Genou de face" true (Some SampleStore.scan)) "k-2" None
             SampleStore.knee2 Hid Hinst)) "k-1") by discriminate.
  reflexivity.
Defined.

(** X20.  Saving with no step id and a scenario id adds exactly one step to
    that scenario, under a new id, with the form's text and with the chosen
    non-empty file as its media (and the file's type as its media type);
    the other scenarios are untouched.  With neither id nothing is
    stored. *)
Theorem X20_save_new_step (db : Store.DB) (uuid : nat → string)
    (form : Editor.Form) (scenarioId : string) :
  Store.fresh uuid db →
  scenarioId ≠ "" →
  let added :=
    Direct.mkInstruction (uuid O) scenarioId (Editor.form_name form)
      (Editor.chosen_file form) (Direct.blob_type <$> Editor.chosen_file form)
      "bg-slate-900" in
  let db' := Editor.handleSaveInstruction db uuid form None (Some scenarioId) in
  Store.instructionsStore db' = <[uuid O := added]> (Store.instructionsStore db)
  ∧ Store.getInstructions db' scenarioId ≡ₚ added :: Store.getInstructions db scenarioId
  ∧ (∀ other, other ≠ scenarioId →
       Store.getInstructions db' other ≡ₚ Store.getInstructions db other)
  ∧ Store.scenariosStore db' = Store.scenariosStore db
  ∧ Editor.handleSaveInstruction db uuid form None None = db
  ∧ Editor.handleSaveInstruction db uuid form (Some "") (Some "") = db.
Proof.
  intros (Hinj & Hsc & Hin & Hscen) Hsid%truthy_string_spec added db'.
  assert (Hstore : Store.instructionsStore db'
                   = <[uuid O := added]> (Store.instructionsStore db)).
  { subst db' added. unfold Editor.handleSaveInstruction.
    cbn [JS.truthy_nullable default]. unfold id. rewrite Hsid.
    unfold Store.createInstruction. cbn [Direct.id].
    destruct (Editor.chosen_file form) as [file|]; [|done].
    unfold Store.updateInstruction. cbn [Store.instructionsStore Store.scenariosStore].
    rewrite lookup_insert_eq. cbn [Store.instructionsStore].
    by rewrite insert_insert_eq. }
  assert (Hsc' : Store.scenariosStore db' = Store.scenariosStore db).
  { subst db'. unfold Editor.handleSaveInstruction.
    cbn [JS.truthy_nullable default]. unfold id. rewrite Hsid.
    unfold Store.createInstruction. cbn [Direct.id].
    destruct (Editor.chosen_file form) as [file|]; [|done].
    unfold Store.updateInstruction. cbn [Store.instructionsStore Store.scenariosStore].
    by rewrite lookup_insert_eq. }
  assert (Hget : ∀ sid, Store.getInstructions db' sid
    ≡ₚ (if decide (scenarioId = sid) then [added] else []) ++ Store.getInstructions db sid).
  { intros sid.
    assert (Hdb : db' = Store.mkDB (Store.scenariosStore db')
                          (<[uuid O := added]> (Store.instructionsStore db)))
      by (rewrite <- Hstore; by destruct db').
    rewrite Hdb. rewrite getInstructions_insert_fresh by apply Hin. done. }
  split; [exact Hstore|]. split; [|split; [|split; [exact Hsc'|done]]].
  - by rewrite Hget, decide_True.
  - intros other Hother. by rewrite Hget, decide_False.
Qed.

Lemma X20_witness :
  Store.fresh SampleStore.uuid SampleStore.db
  ∧ "knee" ≠ ""
  ∧ Store.instructionsStore
      (Editor.handleSaveInstruction SampleStore.db SampleStore.uuid
         (Editor.mkForm "Profil" false (Some SampleStore.scan)) None (Some "knee"))
    = <[SampleStore.uuid O :=
          Direct.mkInstruction (SampleStore.uuid O) "knee" "Profil"
            (Some SampleStore.scan) (Some "image/gif") "bg-slate-900"]>
        (Store.instructionsStore SampleStore.db).
Proof.
  assert (Hid : "knee" ≠ "") by discriminate.
  split; [exact sample_fresh|]. split; [exact Hid|].
  exact (proj1 (X20_save_new_step SampleStore.db SampleStore.uuid
                  (Editor.mkForm "Profil" false (Some SampleStore.scan)) "knee"
                  sample_fresh Hid)).
Defined.

Lemma well_formed_insert (db : Store.DB) key inst :
  Store.well_formed db →
  Direct.id inst = key →
  Direct.media_type inst = Direct.blob_type <$> Direct.media inst →
  Store.well_formed (Store.mkDB (Store.scenariosStore db)
                       (<[key := inst]> (Store.instructionsStore db))).
Proof.
  intros [Hs Hi] Hid Hsync. split; [exact Hs|].
  intros k i. cbn [Store.instructionsStore]. rewrite lookup_insert.
  case_decide; [|apply Hi]. intros [= <-]. by subst.
Qed.

(** X21.  The editing operations keep the store well formed: every item is
    stored under its own id and the media type recorded for a step is the
    type of its media file (none when it has no media). *)
Theorem X21_editing_keeps_store_well_formed (db : Store.DB) (uuid : nat → string) :
  Store.well_formed db →
  (∀ form instructionId scenarioId,
     Store.well_formed
       (Editor.handleSaveInstruction db uuid form instructionId scenarioId))
  ∧ (∀ scenarioId name, Store.well_formed (Store.createInstruction db uuid scenarioId name).1)
  ∧ (∀ instructionId, Store.well_formed (Store.deleteInstruction db instructionId))
  ∧ (∀ scenarioId, Store.well_formed (Store.deleteScenario db scenarioId))
  ∧ (∀ scenarioId inst,
       inst ∈ Store.getInstructions db scenarioId →
       Direct.media_type inst = Direct.blob_type <$> Direct.media inst
       ∧ Store.instructionsStore db !! Direct.id inst = Some inst).
Proof.
  intros Hwf. pose proof Hwf as [Hs Hi].
  split; [|split; [|split; [|split]]].
  - intros form instructionId scenarioId. unfold Editor.handleSaveInstruction.
    destruct (JS.truthy_nullable instructionId).
    + cbv zeta. unfold Store.updateInstruction.
      destruct (Store.instructionsStore db !! default "" instructionId) as [inst|] eqn:Hinst;
        [|by destruct (Editor.form_remove_media form), (Editor.chosen_file form)].
      destruct (Hi _ _ Hinst) as [Hid Hsync].
      apply well_formed_insert; [done | |];
        destruct (Editor.form_remove_media form); try done;
        by destruct (Editor.chosen_file form).
    + destruct (JS.truthy_nullable scenarioId); [|done].
      unfold Store.createInstruction. cbn [Direct.id].
      destruct (Editor.chosen_file form) as [file|].
      * unfold Store.updateInstruction. cbn [Store.instructionsStore Store.scenariosStore].
        rewrite lookup_insert_eq. cbn [Store.instructionsStore].
        rewrite insert_insert_eq. by apply well_formed_insert.
      * by apply well_formed_insert.
  - intros scenarioId name. by apply well_formed_insert.
  - intros instructionId. split; [exact Hs|].
    intros key inst. cbn [Store.deleteInstruction Store.instructionsStore].
    intros [_ Hl]%lookup_delete_Some. by apply Hi.
  - intros scenarioId. split.
    + intros key s. cbn [Store.deleteScenario Store.scenariosStore].
      intros [_ Hl]%lookup_delete_Some. by apply Hs.
    + intros key inst. rewrite deleteScenario_instructions.
      intros [Hl _]%map_lookup_filter_Some. by apply Hi.
  - intros scenarioId inst [[key Hk] _]%elem_of_getInstructions.
    destruct (Hi _ _ Hk) as [Hid Hsync]. split; [done|]. by rewrite Hid.
Qed.

Lemma X21_witness :
  Store.well_formed SampleStore.db
  ∧ Store.well_formed
      (Editor.handleSaveInstruction SampleStore.db SampleStore.uuid
         (Editor.mkForm "Profil" false (Some SampleStore.scan)) (Some "k-1") None).
Proof.
  split; [exact sample_well_formed|].
  exact (proj1 (X21_editing_keeps_store_well_formed SampleStore.db SampleStore.uuid
                  sample_well_formed) _ _ _).
Defined.

Lemma deleteScenario_well_formed (db : Store.DB) scenarioId :
  Store.well_formed db → Store.well_formed (Store.deleteScenario db scenarioId).
Proof.
  intros [Hs Hi]. split.
  - intros key s. cbn [Store.deleteScenario Store.scenariosStore].
    intros [_ Hl]%lookup_delete_Some. by apply Hs.
  - intros key inst. rewrite deleteScenario_instructions.
    intros [Hl _]%map_lookup_filter_Some. by apply Hi.
Qed.

(** ** Reloading the step lists *)

Lemma instMap_fold (db : Store.DB) (l : list Store.Scenario)
    (m0 : gmap string (list Direct.Instruction)) scenarioId :
  foldl (λ m scenario,
           <[Store.id scenario := Store.getInstructions db (Store.id scenario)]> m) m0 l
    !! scenarioId
  = if decide (scenarioId ∈ Store.id <$> l)
    then Some (Store.getInstructions db scenarioId)
    else m0 !! scenarioId.
Proof.
  revert m0. induction l as [|s l IH]; intros m0.
  - cbn [foldl fmap list_fmap]. rewrite decide_False; [done|]. apply not_elem_of_nil.
  - cbn [foldl fmap list_fmap]. rewrite IH. rewrite lookup_insert.
    destruct (decide (scenarioId ∈ Store.id <$> l)) as [Hin|Hnin].
    + rewrite decide_True; [done|]. by right.
    + destruct (decide (Store.id s = scenarioId)) as [<-|Hne].
      * rewrite decide_True; [done|]. by left.
      * rewrite decide_False; [done|]. intros [?|?]%elem_of_cons; congruence.
Qed.

Lemma instMap_lookup (db : Store.DB) scenarioId :
  Store.well_formed db →
  Editor.instMap db !! scenarioId
  = if decide (is_Some (Store.scenariosStore db !! scenarioId))
    then Some (Store.getInstructions db scenarioId)
    else None.
Proof.
  intros [Hs _]. unfold Editor.instMap. rewrite instMap_fold, lookup_empty.
  assert (Hiff : scenarioId ∈ Store.id <$> Store.items (Store.scenariosStore db)
                 ↔ is_Some (Store.scenariosStore db !! scenarioId)).
  { rewrite items_values, list_elem_of_fmap. split.
    - intros (s & -> & [[k v] [-> Hkv]]%list_elem_of_fmap).
      apply elem_of_map_to_list in Hkv. simpl. rewrite (Hs _ _ Hkv). by eexists.
    - intros [s Hl]. exists s. split; [by rewrite (Hs _ _ Hl)|].
      apply list_elem_of_fmap. exists (scenarioId, s). split; [done|].
      by apply elem_of_map_to_list. }
  destruct (decide (is_Some (Store.scenariosStore db !! scenarioId))) as [Hy|Hn].
  - rewrite decide_True; [done|]. by apply Hiff.
  - rewrite decide_False; [done|]. by rewrite Hiff.
Qed.

(** X22.  A reload gives the console, for every stored scenario, the steps
    of that scenario, and no list for an id that is not a stored scenario.
    It leaves the session as it is, so the session reads the new lists:
    after the active scenario is deleted and the lists are reloaded, every
    jump is ignored and a new start of that scenario sends nothing. *)
Theorem X22_reload_step_lists (db : Store.DB) :
  Store.well_formed db →
  (∀ scenarioId,
     JS.get_or_empty (Editor.instMap db) scenarioId
     = if decide (is_Some (Store.scenariosStore db !! scenarioId))
       then Store.getInstructions db scenarioId
       else [])
  ∧ ∀ (st : Direct.Staff) scenarioId index,
      activeScenarioId st = Some scenarioId →
      let st' := Editor.fetchScenarios (Store.deleteScenario db scenarioId) st in
      activeScenarioId st' = Some scenarioId
      ∧ currentStepIndex st' = currentStepIndex st
      ∧ active_steps st' = []
      ∧ Direct.goToStep st' index = (st', [])
      ∧ (Direct.startSession st' scenarioId).2 = [].
Proof.
  intros Hwf.
  assert (Hget : ∀ db0 scenarioId, Store.well_formed db0 →
     JS.get_or_empty (Editor.instMap db0) scenarioId
     = if decide (is_Some (Store.scenariosStore db0 !! scenarioId))
       then Store.getInstructions db0 scenarioId
       else []).
  { intros db0 scenarioId Hwf0. unfold JS.get_or_empty. rewrite instMap_lookup by done.
    by case_decide. }
  split; [intros scenarioId; by apply Hget|].
  intros st scenarioId index Hactive st'.
  assert (Hnone : JS.get_or_empty (Editor.instMap (Store.deleteScenario db scenarioId))
                    scenarioId = []).
  { rewrite Hget by (by apply deleteScenario_well_formed).
    rewrite decide_False; [done|].
    cbn [Store.deleteScenario Store.scenariosStore]. rewrite lookup_delete_eq.
    by intros [? ?]. }
  assert (Hsteps : active_steps st' = []).
  { subst st'. unfold active_steps, Editor.fetchScenarios.
    cbn [activeScenarioId instructionsByScenario]. by rewrite Hactive. }
  split; [done|]. split; [done|]. split; [exact Hsteps|]. split.
  - unfold Direct.goToStep. apply goToStep_out_of_range. rewrite Hsteps.
    unfold JS.length. simpl. lia.
  - unfold Direct.startSession. by apply startSession_out_nil.
Qed.

Lemma X22_witness :
  Store.well_formed SampleStore.db
  ∧ activeScenarioId (Direct.startSession (initial ∅ Sample.linked) "knee").1 = Some "knee"
  ∧ Direct.goToStep
      (Editor.fetchScenarios (Store.deleteScenario SampleStore.db "knee")
         (Direct.startSession (initial ∅ Sample.linked) "knee").1) 1
    = (Editor.fetchScenarios (Store.deleteScenario SampleStore.db "knee")
         (Direct.startSession (initial ∅ Sample.linked) "knee").1, []).
Proof.
  split; [exact sample_well_formed|]. split; [reflexivity|].
  exact (proj1 (proj2 (proj2 (proj2
           (proj2 (X22_reload_step_lists SampleStore.db sample_well_formed)
              (Direct.startSession (initial ∅ Sample.linked) "knee").1 "knee" 1
              eq_refl))))).
Defined.
